(** * Image compressor page: crop geometry, export pipeline and size read-outs

    A shallow embedding of the [Home] component: the file-selection
    handler, the crop extractor, the export
    pipeline with its PDF wrapper, and the two derived read-outs
    ([formatBytes], [compressionRatio]).

    Conventions of the embedding.
    - JavaScript numbers appear in two forms.  [JS.number] holds exact
      rationals plus [Infinity], [-Infinity] and [NaN], without the sign of
      zero and without rounding: it is used where the code only moves
      numbers around or where the statements made do not depend on
      rounding (the crop geometry, the unit index and the read-out of
      [formatBytes] below 1024^4 bytes).  [Binary64] holds IEEE 754 double
      precision numbers with their rounding and is used for the percentage
      saved, where rounding decides the figure shown.  File sizes, image
      sizes and settings are whole numbers and are kept in [Z]; the fields
      of a crop rectangle are numbers and may carry a fraction.
    - React state is an explicit record; a handler is a function on a
      [World] that also records alerts, console output, pending
      [FileReader] loads and the calls made to the external libraries.
    - The external collaborators (HEIC decoder, compressor, encoders, URL
      factory) are the fields of an [Env] record. *)

From Stdlib Require Import ZArith QArith Qcanon Qround SpecFloat.
From Stdlib Require Import String Ascii List Bool Lia DecimalString.
Import ListNotations.

Local Open Scope string_scope.
Local Open Scope Z_scope.

(* ================================================================== *)
(** ** JavaScript numbers and strings *)
(* ================================================================== *)

Module JS.

Inductive number : Type :=
| Finite (q : Qc)
| Infinity
| NegInfinity
| NaN.

Definition of_Z (z : Z) : number := Finite (Q2Qc (inject_Z z)).

Definition Qc_sign (q : Qc) : comparison := Qccompare q (Q2Qc 0).

Definition neg (a : number) : number :=
  match a with
  | Finite q => Finite (- q)%Qc
  | Infinity => NegInfinity
  | NegInfinity => Infinity
  | NaN => NaN
  end.

(** An infinity scaled by a finite factor: the factor's sign decides,
    and a zero factor gives [NaN]. *)
Definition scale_inf (q : Qc) : number :=
  match Qc_sign q with
  | Eq => NaN
  | Gt => Infinity
  | Lt => NegInfinity
  end.

(** [a * b] *)
Definition mul (a b : number) : number :=
  match a, b with
  | NaN, _ | _, NaN => NaN
  | Finite x, Finite y => Finite (x * y)%Qc
  | Finite x, Infinity | Infinity, Finite x => scale_inf x
  | Finite x, NegInfinity | NegInfinity, Finite x => neg (scale_inf x)
  | Infinity, Infinity | NegInfinity, NegInfinity => Infinity
  | Infinity, NegInfinity | NegInfinity, Infinity => NegInfinity
  end.

(** [a / b]; a finite value over zero is an infinity of the dividend's
    sign and [0 / 0] is [NaN]. *)
Definition div (a b : number) : number :=
  match a, b with
  | NaN, _ | _, NaN => NaN
  | Finite x, Finite y =>
      match Qc_sign y with
      | Eq => scale_inf x
      | _ => Finite (x / y)%Qc
      end
  | Finite _, (Infinity | NegInfinity) => Finite (Q2Qc 0)
  | Infinity, Finite y =>
      match Qc_sign y with Lt => NegInfinity | _ => Infinity end
  | NegInfinity, Finite y =>
      match Qc_sign y with Lt => Infinity | _ => NegInfinity end
  | (Infinity | NegInfinity), (Infinity | NegInfinity) => NaN
  end.

(** [a - b] *)
Definition sub (a b : number) : number :=
  match a, b with
  | NaN, _ | _, NaN => NaN
  | Finite x, Finite y => Finite (x - y)%Qc
  | Finite _, Infinity => NegInfinity
  | Finite _, NegInfinity => Infinity
  | Infinity, Finite _ => Infinity
  | NegInfinity, Finite _ => NegInfinity
  | Infinity, NegInfinity => Infinity
  | NegInfinity, Infinity => NegInfinity
  | Infinity, Infinity | NegInfinity, NegInfinity => NaN
  end.

(** [Math.round]: the nearest integer, a tie going to the larger one. *)
Definition Math_round (a : number) : number :=
  match a with
  | Finite q => of_Z (Qfloor (q + Q2Qc (1 # 2))%Qc)
  | other => other
  end.

(** [Math.pow(k, i)] for a whole, non-negative exponent. *)
Definition Math_pow (k : Z) (i : Z) : number := of_Z (k ^ i).

(** [Math.floor(Math.log(b) / Math.log(k))] for whole numbers [b >= 1]
    and [k >= 2]: the number of times [b] can be divided by [k] before it
    drops below [k].  [log_floor_spec] below shows that this is the
    exponent [i] with [k^i <= b < k^(i+1)]. *)
Fixpoint log_floor_loop (fuel : nat) (k b : Z) : Z :=
  match fuel with
  | O => 0
  | S fuel' => if b <? k then 0 else 1 + log_floor_loop fuel' k (b / k)
  end.

Definition log_floor (b k : Z) : Z :=
  log_floor_loop (S (Z.to_nat (Z.log2 b))) k b.

(** Decimal digits of a whole number. *)
Definition Z_toString (z : Z) : string :=
  NilZero.string_of_int (Z.to_int z).

(** Fraction digits of [r / d] (with [0 <= r < d]), until the expansion
    ends. *)
Fixpoint fraction_digits (fuel : nat) (r d : Z) : string :=
  match fuel with
  | O => ""
  | S fuel' =>
      if r =? 0 then ""
      else Z_toString (10 * r / d) ++ fraction_digits fuel' (10 * r mod d) d
  end.

(** [String(a)] for a number whose decimal expansion ends within twenty
    fraction digits (every value printed by this page is a whole number or
    a number of hundredths). *)
Definition toString (a : number) : string :=
  match a with
  | NaN => "NaN"
  | Infinity => "Infinity"
  | NegInfinity => "-Infinity"
  | Finite q =>
      let n := Qnum q in
      let d := Zpos (Qden q) in
      let m := Z.abs n in
      let whole := Z_toString (m / d) in
      let frac := fraction_digits 20 (m mod d) d in
      (if n <? 0 then "-" else "")
        ++ whole ++ (if m mod d =? 0 then "" else "." ++ frac)
  end.

(** ASCII lower-casing of one character and of a string. *)
Definition lower_ascii (c : ascii) : ascii :=
  let n := nat_of_ascii c in
  if ((65 <=? n) && (n <=? 90))%nat then ascii_of_nat (n + 32) else c.

Fixpoint toLowerCase (s : string) : string :=
  match s with
  | EmptyString => EmptyString
  | String c s' => String (lower_ascii c) (toLowerCase s')
  end.

(** [s.endsWith(suffix)] *)
Definition endsWith (s suffix : string) : bool :=
  let n := String.length s in
  let m := String.length suffix in
  if (m <=? n)%nat then String.eqb (substring (n - m) m s) suffix else false.

(** [arr[i]] for a whole index; [None] stands for [undefined]. *)
Definition index {A : Type} (arr : list A) (i : Z) : option A :=
  if i <? 0 then None else nth_error arr (Z.to_nat i).

(** What string concatenation makes of a possibly undefined string. *)
Definition concat_operand (o : option string) : string :=
  match o with
  | Some s => s
  | None => "undefined"
  end.

(** A whole number as a rational. *)
Definition whole (z : Z) : Qc := Q2Qc (inject_Z z).

(** The integral part of a rational, the fraction being dropped. *)
Definition truncate (q : Qc) : Z := Z.quot (Qnum q) (Zpos (Qden q)).

End JS.

(** Double precision numbers, with the operations of the standard
    library's [SpecFloat] at 53 bits of precision. *)
Module Binary64.

Definition number : Type := spec_float.

Definition prec : Z := 53.
Definition emax : Z := 1024.

(** The double nearest to a whole number (the number itself up to
    2^53). *)
Definition of_Z (z : Z) : number := binary_normalize prec emax z 0 false.

Definition sub (a b : number) : number := SFsub prec emax a b.
Definition mul (a b : number) : number := SFmul prec emax a b.
Definition div (a b : number) : number := SFdiv prec emax a b.

(** [Math.round]: the integer nearest to the argument, a tie going to
    the larger one; an argument that rounds to zero keeps its sign. *)
Definition Math_round (a : number) : number :=
  match a with
  | S754_finite s m e =>
      if 0 <=? e then a
      else
        let v := if s then Z.neg m else Z.pos m in
        let n := (2 * v + 2 ^ (- e)) / 2 ^ (- e + 1) in
        if n =? 0 then S754_zero s else of_Z n
  | other => other
  end.

(** The exact value of a finite double. *)
Definition to_Q (a : number) : Q :=
  match a with
  | S754_finite s m e =>
      let v := if s then Z.neg m else Z.pos m in
      if 0 <=? e then inject_Z (v * 2 ^ e)
      else (inject_Z v / inject_Z (2 ^ (- e)))%Q
  | _ => 0%Q
  end.

End Binary64.

(* ================================================================== *)
(** ** Data model *)
(* ================================================================== *)

(** The document object of the PDF library, as far as the page uses it:
    the constructor with its [orientation], [unit] and [format] options,
    [addImage] and [output('blob')]. *)
Module jsPDF.

Inductive Orientation : Type := portrait | landscape.

Record Image : Type := mkImage {
  imageData : string;
  format : string;
  x : Z;
  y : Z;
  w : Z;
  h : Z
}.

Record Page : Type := mkPage {
  width : Z;
  height : Z;
  images : list Image
}.

Record t : Type := mk {
  orientation : Orientation;
  unit : string;
  pages : list Page
}.

(** The library lays a page out so that it agrees with the requested
    orientation: a portrait page wider than tall, or a landscape page
    taller than wide, has its two dimensions exchanged. *)
Definition page_size (o : Orientation) (fmt : Z * Z) : Z * Z :=
  let (fw, fh) := fmt in
  match o with
  | portrait => if fh <? fw then (fh, fw) else (fw, fh)
  | landscape => if fw <? fh then (fh, fw) else (fw, fh)
  end.

(** [new jsPDF({orientation, unit, format})]: a document with its first
    page. *)
Definition new (o : Orientation) (u : string) (fmt : Z * Z) : t :=
  let (pw, ph) := page_size o fmt in
  mk o u [mkPage pw ph []].

Fixpoint on_last_page (f : Page -> Page) (ps : list Page) : list Page :=
  match ps with
  | [] => []
  | [p] => [f p]
  | p :: rest => p :: on_last_page f rest
  end.

(** [pdf.addImage(data, format, x, y, w, h)] places the image on the
    current page. *)
Definition addImage (doc : t) (data fmt : string) (ix iy iw ih : Z) : t :=
  let place p :=
    mkPage (width p) (height p) (images p ++ [mkImage data fmt ix iy iw ih]) in
  mk (orientation doc) (unit doc) (on_last_page place (pages doc)).

End jsPDF.

(** What the bytes of a blob are: an image in some encoding with its
    pixel dimensions, a PDF document, or something no image decoder
    accepts. *)
Inductive Content : Type :=
| ImageData (encoding : string) (width height : Z)
| Document (doc : jsPDF.t)
| Undecodable.

Module Blob.
Record t : Type := mk {
  type : string;
  size : Z;
  content : Content
}.
End Blob.

Module File.
Record t : Type := mk {
  name : string;
  type : string;
  size : Z;
  content : Content
}.

(** [new File([blob], name, { type })] *)
Definition new (blob : Blob.t) (name type : string) : t :=
  mk name type (Blob.size blob) (Blob.content blob).
End File.

Module HTMLImageElement.
Record t : Type := mk {
  naturalWidth : Z;
  naturalHeight : Z;
  width : Z;
  height : Z
}.
End HTMLImageElement.

(** A crop rectangle in displayed pixels; its four fields are numbers,
    not necessarily whole. *)
Module PixelCrop.
Record t : Type := mk {
  x : Qc;
  y : Qc;
  width : Qc;
  height : Qc
}.

(** A rectangle of whole pixels. *)
Definition whole (x y width height : Z) : t :=
  mk (JS.whole x) (JS.whole y) (JS.whole width) (JS.whole height).
End PixelCrop.

(** The crop being dragged, in pixels or in percent. *)
Module Crop.
Record t : Type := mk {
  unit : string;
  x : Qc;
  y : Qc;
  width : Qc;
  height : Qc
}.
End Crop.

(** An off-screen canvas: its size and the [drawImage] calls made on its
    2d context. *)
Module Canvas.
Record DrawImage : Type := mkDrawImage {
  sx : JS.number;
  sy : JS.number;
  sWidth : JS.number;
  sHeight : JS.number;
  dx : JS.number;
  dy : JS.number;
  dWidth : JS.number;
  dHeight : JS.number
}.

Record t : Type := mk {
  width : Z;
  height : Z;
  drawn : list DrawImage
}.

(** [document.createElement('canvas')]: 300 by 150 and blank. *)
Definition create : t := mk 300 150 [].

(** What the [width] and [height] attributes keep of a number assigned
    to them: the number loses its fraction and is taken modulo 2^32
    ([NaN] and the infinities count as 0), and a result above 2147483647
    is replaced by the attribute's default. *)
Definition reflect_unsigned_long (default : Z) (v : JS.number) : Z :=
  let n :=
    match v with
    | JS.Finite q => JS.truncate q mod 2 ^ 32
    | _ => 0
    end in
  if n <=? 2147483647 then n else default.

(** [canvas.width = v] and [canvas.height = v]; either assignment also
    clears the canvas. *)
Definition set_width (c : t) (v : JS.number) : t :=
  mk (reflect_unsigned_long 300 v) (height c) [].
Definition set_height (c : t) (v : JS.number) : t :=
  mk (width c) (reflect_unsigned_long 150 v) [].
Definition drawImage (c : t) (d : DrawImage) : t :=
  mk (width c) (height c) (drawn c ++ [d]).
End Canvas.

Inductive OutputFormat : Type := jpeg | png | webp | pdf.

Definition format_name (f : OutputFormat) : string :=
  match f with
  | jpeg => "jpeg"
  | png => "png"
  | webp => "webp"
  | pdf => "pdf"
  end.

(** The options object handed to the compression library. *)
Record Options : Type := mkOptions {
  maxSizeMB : Z;
  maxWidthOrHeight : Z;
  useWebWorker : bool;
  opt_quality : JS.number;
  fileType : string
}.

(** The component's state, one field per [useState]. *)
Record State : Type := mkState {
  selectedFile : option File.t;
  originalImage : option string;
  processedImage : option string;
  isProcessing : bool;
  quality : Z;
  maxWidth : Z;
  maxHeight : Z;
  outputFormat : OutputFormat;
  showCrop : bool;
  crop : option Crop.t;
  completedCrop : option PixelCrop.t;
  originalSize : Z;
  compressedSize : Z
}.

Definition initialState : State :=
  mkState None None None false 80 1920 1080 jpeg false None None 0 0.

(** A [FileReader] that has been started and whose [onload] is still to
    run; the two callbacks of the page store the data URL as the original
    or as the processed image. *)
Inductive PendingRead : Type :=
| ReadOriginal (f : File.t)
| ReadProcessed (f : File.t).

(** The component together with what a handler can observe or cause
    outside its state. *)
Record World : Type := mkWorld {
  state : State;
  imgRef : option HTMLImageElement.t;
  alerts : list string;
  console : list string;
  reading : list PendingRead;
  heic2any_calls : list File.t;
  imageCompression_calls : list (File.t * Options)
}.

(** The external collaborators.  A promise-returning library call either
    resolves ([Some]) or rejects ([None]). *)
Record Env : Type := mkEnv {
  heic2any : File.t -> option Blob.t;
  imageCompression : File.t -> Options -> option File.t;
  getContext_2d : Canvas.t -> bool;
  encode : Canvas.t -> string -> option Z;
  readAsDataURL : File.t -> string;
  createObjectURL : Blob.t -> string;
  pdf_size : jsPDF.t -> Z
}.

(* ================================================================== *)
(** ** Handlers as world transformers *)
(* ================================================================== *)

(** How an awaited computation ends: it resolves, it rejects (or throws),
    or it never settles. *)
Inductive Outcome (A : Type) : Type :=
| Resolved (a : A)
| Rejected (e : string)
| Unsettled.

Arguments Resolved {A} a.
Arguments Rejected {A} e.
Arguments Unsettled {A}.

Definition M (A : Type) : Type := World -> Outcome A * World.

Definition ret {A : Type} (a : A) : M A := fun w => (Resolved a, w).

Definition bind {A B : Type} (m : M A) (k : A -> M B) : M B :=
  fun w =>
    match m w with
    | (Resolved a, w') => k a w'
    | (Rejected e, w') => (Rejected e, w')
    | (Unsettled, w') => (Unsettled, w')
    end.

(** [try { body } catch (error) { handler }] *)
Definition try_catch {A : Type} (body : M A) (handler : string -> M A) : M A :=
  fun w =>
    match body w with
    | (Rejected e, w') => handler e w'
    | settled => settled
    end.

(** [await] of a computation that does not touch the component. *)
Definition await {A : Type} (o : Outcome A) : M A := fun w => (o, w).

(** [await] of a library promise. *)
Definition settle_promise {A : Type} (what : string) (o : option A) : Outcome A :=
  match o with
  | Some a => Resolved a
  | None => Rejected what
  end.

Declare Scope handler_scope.
Delimit Scope handler_scope with handler.
Notation "x <- c ;; k" := (bind c (fun x => k))
  (at level 61, c at next level, right associativity) : handler_scope.
Notation "c ;; k" := (bind c (fun _ => k))
  (at level 61, right associativity) : handler_scope.

Definition with_state (f : State -> State) : M unit :=
  fun w =>
    (Resolved tt,
     mkWorld (f (state w)) (imgRef w) (alerts w) (console w) (reading w)
       (heic2any_calls w) (imageCompression_calls w)).

Definition setSelectedFile (v : option File.t) : M unit :=
  with_state (fun s =>
    mkState v (originalImage s) (processedImage s) (isProcessing s)
      (quality s) (maxWidth s) (maxHeight s) (outputFormat s) (showCrop s)
      (crop s) (completedCrop s) (originalSize s) (compressedSize s)).

Definition setOriginalImage (v : option string) : M unit :=
  with_state (fun s =>
    mkState (selectedFile s) v (processedImage s) (isProcessing s)
      (quality s) (maxWidth s) (maxHeight s) (outputFormat s) (showCrop s)
      (crop s) (completedCrop s) (originalSize s) (compressedSize s)).

Definition setProcessedImage (v : option string) : M unit :=
  with_state (fun s =>
    mkState (selectedFile s) (originalImage s) v (isProcessing s)
      (quality s) (maxWidth s) (maxHeight s) (outputFormat s) (showCrop s)
      (crop s) (completedCrop s) (originalSize s) (compressedSize s)).

Definition setIsProcessing (v : bool) : M unit :=
  with_state (fun s =>
    mkState (selectedFile s) (originalImage s) (processedImage s) v
      (quality s) (maxWidth s) (maxHeight s) (outputFormat s) (showCrop s)
      (crop s) (completedCrop s) (originalSize s) (compressedSize s)).

Definition setShowCrop (v : bool) : M unit :=
  with_state (fun s =>
    mkState (selectedFile s) (originalImage s) (processedImage s)
      (isProcessing s) (quality s) (maxWidth s) (maxHeight s)
      (outputFormat s) v (crop s) (completedCrop s) (originalSize s)
      (compressedSize s)).

Definition setCompletedCrop (v : option PixelCrop.t) : M unit :=
  with_state (fun s =>
    mkState (selectedFile s) (originalImage s) (processedImage s)
      (isProcessing s) (quality s) (maxWidth s) (maxHeight s)
      (outputFormat s) (showCrop s) (crop s) v (originalSize s)
      (compressedSize s)).

Definition setOriginalSize (v : Z) : M unit :=
  with_state (fun s =>
    mkState (selectedFile s) (originalImage s) (processedImage s)
      (isProcessing s) (quality s) (maxWidth s) (maxHeight s)
      (outputFormat s) (showCrop s) (crop s) (completedCrop s) v
      (compressedSize s)).

Definition setCompressedSize (v : Z) : M unit :=
  with_state (fun s =>
    mkState (selectedFile s) (originalImage s) (processedImage s)
      (isProcessing s) (quality s) (maxWidth s) (maxHeight s)
      (outputFormat s) (showCrop s) (crop s) (completedCrop s)
      (originalSize s) v).

(** [alert(msg)] *)
Definition alert (msg : string) : M unit :=
  fun w =>
    (Resolved tt,
     mkWorld (state w) (imgRef w) (alerts w ++ [msg]) (console w) (reading w)
       (heic2any_calls w) (imageCompression_calls w)).

(** [console.error(label, error)] *)
Definition console_error (label error : string) : M unit :=
  fun w =>
    (Resolved tt,
     mkWorld (state w) (imgRef w) (alerts w) (console w ++ [label ++ " " ++ error])
       (reading w) (heic2any_calls w) (imageCompression_calls w)).

(** [reader.readAsDataURL(f)] with one of the page's two [onload]
    callbacks installed: the load is started and completes later. *)
Definition start_read (r : PendingRead) : M unit :=
  fun w =>
    (Resolved tt,
     mkWorld (state w) (imgRef w) (alerts w) (console w) (reading w ++ [r])
       (heic2any_calls w) (imageCompression_calls w)).

(** [await heic2any({ blob: file, toType: 'image/jpeg' })] *)
Definition call_heic2any (env : Env) (file : File.t) : M Blob.t :=
  fun w =>
    (settle_promise "heic2any failed" (heic2any env file),
     mkWorld (state w) (imgRef w) (alerts w) (console w) (reading w)
       (heic2any_calls w ++ [file]) (imageCompression_calls w)).

(** [await imageCompression(file, options)] *)
Definition call_imageCompression (env : Env) (file : File.t) (o : Options)
  : M File.t :=
  fun w =>
    (settle_promise "imageCompression failed" (imageCompression env file o),
     mkWorld (state w) (imgRef w) (alerts w) (console w) (reading w)
       (heic2any_calls w) (imageCompression_calls w ++ [(file, o)])).

(** The [onload] callback of a started read. *)
Definition FileReader_onload (env : Env) (r : PendingRead) : M unit :=
  match r with
  | ReadOriginal f => setOriginalImage (Some (readAsDataURL env f))
  | ReadProcessed f => setProcessedImage (Some (readAsDataURL env f))
  end.

(** All started reads complete, in the order they were started. *)
Definition finish_reads (env : Env) (w : World) : World :=
  fold_left (fun acc r => snd (FileReader_onload env r acc)) (reading w)
    (mkWorld (state w) (imgRef w) (alerts w) (console w) []
       (heic2any_calls w) (imageCompression_calls w)).

(* ================================================================== *)
(** ** The component's functions *)
(* ================================================================== *)

Local Open Scope handler_scope.

(** [file.type === 'image/heic' || file.name.toLowerCase().endsWith('.heic')] *)
Definition is_heic (file : File.t) : bool :=
  String.eqb (File.type file) "image/heic"
  || JS.endsWith (JS.toLowerCase (File.name file)) ".heic".

(** [name.replace(/\.heic$/i, '.jpg')] *)
Definition replace_heic_suffix (name : string) : string :=
  if JS.endsWith (JS.toLowerCase name) ".heic"
  then substring 0 (String.length name - 5) name ++ ".jpg"
  else name.

(** [handleFileSelect]; [files] is [event.target.files].  The handler is
    taken from its first statement to its last: on the HEIC path it waits
    for the conversion, and what other handlers do during that wait is
    not part of this definition. *)
Definition handleFileSelect (env : Env) (files : list File.t) : M unit :=
  match files with
  | [] => ret tt
  | file :: _ =>
      setSelectedFile (Some file) ;;
      setOriginalSize (File.size file) ;;
      (if is_heic file then
         try_catch
           (convertedBlob <- call_heic2any env file ;;
            let convertedFile :=
              File.new convertedBlob (replace_heic_suffix (File.name file))
                "image/jpeg" in
            start_read (ReadOriginal convertedFile) ;;
            setSelectedFile (Some convertedFile))
           (fun error =>
              console_error "HEIC conversion error:" error ;;
              alert "Error converting HEIC file")
       else
         start_read (ReadOriginal file)) ;;
      setProcessedImage None ;;
      setCompletedCrop None ;;
      setShowCrop false
  end.

(** [canvas.toBlob(callback, type)] hands the callback [null] for a canvas
    without pixels or when encoding fails. *)
Definition toBlob (env : Env) (canvas : Canvas.t) (type : string)
  : option Blob.t :=
  if (Canvas.width canvas <=? 0) || (Canvas.height canvas <=? 0) then None
  else
    match encode env canvas type with
    | Some bytes =>
        Some (Blob.mk type bytes
                (ImageData type (Canvas.width canvas) (Canvas.height canvas)))
    | None => None
    end.

(** [getCroppedImage], up to and including the [drawImage] call. *)
Definition getCroppedImage_canvas (env : Env) (image : HTMLImageElement.t)
    (crop : PixelCrop.t) : Outcome Canvas.t :=
  let canvas := Canvas.create in
  let scaleX :=
    JS.div (JS.of_Z (HTMLImageElement.naturalWidth image))
           (JS.of_Z (HTMLImageElement.width image)) in
  let scaleY :=
    JS.div (JS.of_Z (HTMLImageElement.naturalHeight image))
           (JS.of_Z (HTMLImageElement.height image)) in
  let canvas := Canvas.set_width canvas (JS.Finite (PixelCrop.width crop)) in
  let canvas := Canvas.set_height canvas (JS.Finite (PixelCrop.height crop)) in
  if negb (getContext_2d env canvas) then Rejected "No 2d context"
  else
    Resolved
      (Canvas.drawImage canvas
         (Canvas.mkDrawImage
            (JS.mul (JS.Finite (PixelCrop.x crop)) scaleX)
            (JS.mul (JS.Finite (PixelCrop.y crop)) scaleY)
            (JS.mul (JS.Finite (PixelCrop.width crop)) scaleX)
            (JS.mul (JS.Finite (PixelCrop.height crop)) scaleY)
            (JS.of_Z 0)
            (JS.of_Z 0)
            (JS.Finite (PixelCrop.width crop))
            (JS.Finite (PixelCrop.height crop)))).

(** [getCroppedImage]: the canvas above, then the promise around
    [canvas.toBlob(..., 'image/jpeg')]. *)
Definition getCroppedImage (env : Env) (image : HTMLImageElement.t)
    (crop : PixelCrop.t) : Outcome Blob.t :=
  match getCroppedImage_canvas env image crop with
  | Resolved canvas =>
      match toBlob env canvas "image/jpeg" with
      | None => Rejected "Canvas is empty"
      | Some blob => Resolved blob
      end
  | Rejected e => Rejected e
  | Unsettled => Unsettled
  end.

(** [convertToPDF].  The promise resolves from the [onload] of an [Image]
    fed with the file's data URL, and has no other exit: for a file that
    does not decode as an image it never settles. *)
Definition convertToPDF (env : Env) (file : File.t) : Outcome Blob.t :=
  let result := readAsDataURL env file in
  match File.content file with
  | ImageData _ img_width img_height =>
      let pdf :=
        jsPDF.new
          (if img_width >? img_height then jsPDF.landscape else jsPDF.portrait)
          "px"
          (img_width, img_height) in
      let pdf := jsPDF.addImage pdf result "JPEG" 0 0 img_width img_height in
      Resolved (Blob.mk "application/pdf" (pdf_size env pdf) (Document pdf))
  | Document _ | Undecodable => Unsettled
  end.

(** The options object built by [processImage]. *)
Definition compression_options (s : State) : Options :=
  mkOptions 10
    (Z.max (maxWidth s) (maxHeight s))
    true
    (JS.div (JS.of_Z (quality s)) (JS.of_Z 100))
    ("image/" ++ (match outputFormat s with
                  | jpeg => "jpeg"
                  | other => format_name other
                  end)).

(** [processImage]; the state it reads is the one of the render that
    created the handler. *)
Definition processImage (env : Env) : M unit :=
  fun w0 =>
    let s := state w0 in
    match selectedFile s with
    | None => ret tt w0
    | Some selected =>
        (setIsProcessing true ;;
         try_catch
           (fileToProcess <-
              match completedCrop s, imgRef w0 with
              | Some completed, Some current =>
                  croppedBlob <- await (getCroppedImage env current completed) ;;
                  ret (File.new croppedBlob (File.name selected)
                         (File.type selected))
              | _, _ => ret selected
              end ;;
            compressedFile <-
              call_imageCompression env fileToProcess (compression_options s) ;;
            match outputFormat s with
            | pdf =>
                pdfBlob <- await (convertToPDF env compressedFile) ;;
                setCompressedSize (Blob.size pdfBlob) ;;
                setProcessedImage (Some (createObjectURL env pdfBlob))
            | _ =>
                setCompressedSize (File.size compressedFile) ;;
                start_read (ReadProcessed compressedFile)
            end)
           (fun error =>
              console_error "Processing error:" error ;;
              alert "Error processing image") ;;
         setIsProcessing false) w0
    end.

(** The unit names of [formatBytes] and the index it computes into
    them. *)
Definition sizes : list string := ["Bytes"; "KB"; "MB"; "GB"].

Definition unit_index (bytes : Z) : Z := JS.log_floor bytes 1024.

(** [formatBytes], on a whole number of bytes.  The logarithm of a
    negative number is [NaN], which every later step hands on, and
    [sizes[NaN]] is [undefined]. *)
Definition formatBytes (bytes : Z) : string :=
  if bytes =? 0 then "0 Bytes"
  else if bytes <? 0 then "NaN undefined"
  else
    let k := 1024 in
    let i := unit_index bytes in
    JS.toString
      (JS.div
         (JS.Math_round
            (JS.mul (JS.div (JS.of_Z bytes) (JS.Math_pow k i)) (JS.of_Z 100)))
         (JS.of_Z 100))
    ++ " " ++ JS.concat_operand (JS.index sizes i).

(** [compressionRatio], recomputed from the state on every render, as
    the browser computes it: in double precision. *)
Definition compressionRatio_binary64 (s : State) : Binary64.number :=
  if (originalSize s >? 0) && (compressedSize s >? 0)
  then
    Binary64.Math_round
      (Binary64.mul
         (Binary64.sub (Binary64.of_Z 1)
            (Binary64.div (Binary64.of_Z (compressedSize s))
               (Binary64.of_Z (originalSize s))))
         (Binary64.of_Z 100))
  else Binary64.of_Z 0.


(* ================================================================== *)
(** ** Reference definitions and named conditions used by the statements *)
(* ================================================================== *)

(** Rounding to the nearest integer, a tie going upwards, on plain
    rationals. *)
Definition round_half_up (q : Q) : Z := Qfloor (q + (1 # 2))%Q.

(** The saving in percent as the prose puts it:
    round((1 - compressed/original) * 100). *)
Definition percent_saved (original compressed : Z) : Z :=
  round_half_up ((1 - inject_Z compressed / inject_Z original) * 100)%Q.

(** The same in double precision. *)
Definition percent_saved_binary64 (original compressed : Z)
    : Binary64.number :=
  Binary64.Math_round
    (Binary64.mul
       (Binary64.sub (Binary64.of_Z 1)
          (Binary64.div (Binary64.of_Z compressed) (Binary64.of_Z original)))
       (Binary64.of_Z 100)).

(** The display size is exactly half the native size. *)
Definition half_size_display (image : HTMLImageElement.t) : Prop :=
  0 < HTMLImageElement.width image
  /\ 0 < HTMLImageElement.height image
  /\ HTMLImageElement.naturalWidth image = 2 * HTMLImageElement.width image
  /\ HTMLImageElement.naturalHeight image = 2 * HTMLImageElement.height image.

(** The crop rectangle lies inside the displayed image. *)
Definition within_displayed_bounds (image : HTMLImageElement.t)
    (crop : PixelCrop.t) : Prop :=
  (JS.whole 0 <= PixelCrop.x crop)%Qc
  /\ (JS.whole 0 <= PixelCrop.y crop)%Qc
  /\ (JS.whole 0 <= PixelCrop.width crop)%Qc
  /\ (JS.whole 0 <= PixelCrop.height crop)%Qc
  /\ (PixelCrop.x crop + PixelCrop.width crop
      <= JS.whole (HTMLImageElement.width image))%Qc
  /\ (PixelCrop.y crop + PixelCrop.height crop
      <= JS.whole (HTMLImageElement.height image))%Qc.

(** The displayed size of the image is one a canvas attribute can hold. *)
Definition display_fits_canvas (image : HTMLImageElement.t) : Prop :=
  HTMLImageElement.width image <= 2147483647
  /\ HTMLImageElement.height image <= 2147483647.

(** The canvas right after [canvas.width] and [canvas.height] have been
    assigned, on which [getContext('2d')] is called. *)
Definition sized_canvas (crop : PixelCrop.t) : Canvas.t :=
  Canvas.set_height
    (Canvas.set_width Canvas.create (JS.Finite (PixelCrop.width crop)))
    (JS.Finite (PixelCrop.height crop)).

(** *** Sample inputs *)

(** A browser in which the HEIC decoder rejects, the compressor hands the
    file back, a 2d context exists and encoders succeed. *)
Definition sample_env : Env :=
  mkEnv (fun _ => None)
        (fun f _ => Some f)
        (fun _ => true)
        (fun c _ => Some (Canvas.width c * Canvas.height c))
        (fun f => "data:" ++ File.type f ++ ";base64," ++ File.name f)
        (fun _ => "blob:processed")
        (fun _ => 4096).

(** A 2000 by 1000 picture shown at 1000 by 500. *)
Definition sample_image : HTMLImageElement.t :=
  HTMLImageElement.mk 2000 1000 1000 500.

Definition sample_crop : PixelCrop.t := PixelCrop.whole 10 20 100 50.

(** A crop rectangle 100.5 pixels wide and 50.75 pixels high. *)
Definition fractional_crop : PixelCrop.t :=
  PixelCrop.mk (JS.whole 10) (JS.whole 20) (Q2Qc (201 # 2)) (Q2Qc (203 # 4)).

Definition sample_png : File.t :=
  File.mk "holiday.png" "image/png" 500000 (ImageData "image/png" 2000 1000).

Definition sample_heic : File.t :=
  File.mk "IMG_0001.HEIC" "image/heic" 900000 Undecodable.

Definition sample_webp : File.t :=
  File.mk "next.webp" "image/webp" 300000 (ImageData "image/webp" 800 600).

(** The page after [sample_png] has been selected, cropped and
    processed once. *)
Definition sample_state : State :=
  mkState (Some sample_png) (Some "data:image/png;base64,holiday.png")
    (Some "data:image/jpeg;base64,holiday.png") false 80 1920 1080 jpeg
    true None (Some sample_crop) 500000 125000.

Definition sample_world : World :=
  mkWorld sample_state (Some sample_image) [] [] [] [] [].

(** The encoding of the bytes, when they are an image. *)
Definition encoding_of (c : Content) : option string :=
  match c with
  | ImageData encoding _ _ => Some encoding
  | Document _ | Undecodable => None
  end.



(** The condition under which [handleFileSelect] sends a file to the HEIC
    decoder: the declared type is exactly "image/heic", or the name ends
    in ".heic" written in any mix of cases. *)
Definition heic_by_type_or_name (file : File.t) : Prop :=
  File.type file = "image/heic"
  \/ exists stem ext,
       File.name file = stem ++ ext /\ JS.toLowerCase ext = ".heic".

(** The state left by a selection: the given file and its size, nothing
    processed, no crop. *)
Definition selected_state (s : State) (chosen : File.t) (bytes : Z) : State :=
  mkState (Some chosen) (originalImage s) None (isProcessing s) (quality s)
    (maxWidth s) (maxHeight s) (outputFormat s) false (crop s) None bytes
    (compressedSize s).

(** Unfolds the handler combinators and the state projections. *)
Ltac run_handler :=
  cbv beta iota zeta delta
    [bind try_catch ret await setSelectedFile setOriginalSize
     setOriginalImage setProcessedImage setCompletedCrop setShowCrop
     setIsProcessing setCompressedSize with_state alert console_error
     start_read call_heic2any call_imageCompression settle_promise
     fst snd state imgRef alerts console reading heic2any_calls
     imageCompression_calls selectedFile originalImage processedImage
     isProcessing quality maxWidth maxHeight outputFormat showCrop crop
     completedCrop originalSize compressedSize].

(** Opens a world and its state into their fields, so that the
    projections in the goal and in the hypotheses compute. *)
Ltac open_world w :=
  let s := fresh "s" in
  destruct w as [s ? ? ? ? ? ?]; destruct s;
  cbn [state imgRef alerts console reading heic2any_calls
       imageCompression_calls selectedFile originalImage processedImage
       isProcessing quality maxWidth maxHeight outputFormat showCrop crop
       completedCrop originalSize compressedSize selected_state] in *.

(* ================================================================== *)
(** ** The rest of the component: controls, download and what is shown *)
(* ================================================================== *)

Definition setOutputFormat (v : OutputFormat) : M unit :=
  with_state (fun s =>
    mkState (selectedFile s) (originalImage s) (processedImage s)
      (isProcessing s) (quality s) (maxWidth s) (maxHeight s) v
      (showCrop s) (crop s) (completedCrop s) (originalSize s)
      (compressedSize s)).

Definition setCrop (v : option Crop.t) : M unit :=
  with_state (fun s =>
    mkState (selectedFile s) (originalImage s) (processedImage s)
      (isProcessing s) (quality s) (maxWidth s) (maxHeight s)
      (outputFormat s) (showCrop s) v (completedCrop s) (originalSize s)
      (compressedSize s)).

(** The crop button: [onClick={() => setShowCrop(!showCrop)}]. *)
Definition toggleCrop : M unit :=
  fun w => setShowCrop (negb (showCrop (state w))) w.

(** The crop widget's [onComplete={(c) => setCompletedCrop(c)}]. *)
Definition onCropComplete (c : PixelCrop.t) : M unit :=
  setCompletedCrop (Some c).

(** Whether a string-or-null value passes a JavaScript test: [null] and
    the empty string do not. *)
Definition truthy (v : option string) : bool :=
  match v with
  | Some s => negb (String.eqb s "")
  | None => false
  end.

(** The link element that [downloadImage] builds and clicks. *)
Module Anchor.
Record t : Type := mk {
  href : string;
  download : string
}.
End Anchor.

(** [downloadImage]; [now] is the value of [Date.now()].  The result is
    the link that was clicked, if any. *)
Definition downloadImage (now : Z) (s : State) : option Anchor.t :=
  match processedImage s with
  | Some url =>
      if negb (truthy (Some url)) then None
      else
        Some (Anchor.mk url
                ("compressed-" ++ JS.Z_toString now ++ "."
                 ++ format_name (outputFormat s)))
  | None => None
  end.

(** Which of the conditional parts of the page a render produces, and
    the three figures of the statistics panel (the third is followed by
    a percent sign on the page). *)
Record View : Type := mkView {
  settings_shown : bool;
  original_preview_shown : bool;
  crop_widget_shown : bool;
  process_button_disabled : bool;
  download_button_shown : bool;
  stats_shown : bool;
  original_size_text : string;
  compressed_size_text : string;
  saved_percent : Binary64.number;
  processed_preview_shown : bool
}.

Definition has_file (s : State) : bool :=
  match selectedFile s with
  | Some _ => true
  | None => false
  end.

Definition is_pdf (f : OutputFormat) : bool :=
  match f with
  | pdf => true
  | _ => false
  end.

(** The conditions of the JSX, each under the enclosing
    [{selectedFile && ...}]. *)
Definition render (s : State) : View :=
  mkView
    (has_file s)
    (has_file s && truthy (originalImage s))
    (has_file s && truthy (originalImage s) && showCrop s)
    (isProcessing s)
    (has_file s && truthy (processedImage s))
    (has_file s && (compressedSize s >? 0))
    (formatBytes (originalSize s))
    (formatBytes (compressedSize s))
    (compressionRatio_binary64 s)
    (has_file s && truthy (processedImage s) && negb (is_pdf (outputFormat s))).

(** After a render is committed, [imgRef.current] is the image inside the
    crop widget when that widget is on the page, and [null] otherwise:
    the plain preview image carries no ref. *)
Definition commit_ref (element : HTMLImageElement.t) (w : World) : World :=
  mkWorld (state w)
    (if crop_widget_shown (render (state w)) then Some element else None)
    (alerts w) (console w) (reading w) (heic2any_calls w)
    (imageCompression_calls w).

(** The file that [processImage] hands to the compressor: the selected
    file, or, when a crop has been completed and the image element is
    mounted, the cropped blob wrapped under the selected file's name and
    type; cutting the crop out may fail. *)
Definition fileToProcess (env : Env) (w : World) (selected : File.t)
  : Outcome File.t :=
  match completedCrop (state w), imgRef w with
  | Some completed, Some current =>
      match getCroppedImage env current completed with
      | Resolved croppedBlob =>
          Resolved (File.new croppedBlob (File.name selected)
                      (File.type selected))
      | Rejected e => Rejected e
      | Unsettled => Unsettled
      end
  | _, _ => Resolved selected
  end.

(** *** More sample inputs *)

(** A browser in which the HEIC decoder delivers a 1.2 MB JPEG of 4032 by
    3024 pixels; the rest as in [sample_env]. *)
Definition decoding_env : Env :=
  mkEnv (fun _ => Some (Blob.mk "image/jpeg" 1200000
                          (ImageData "image/jpeg" 4032 3024)))
        (imageCompression sample_env)
        (getContext_2d sample_env)
        (encode sample_env)
        (readAsDataURL sample_env)
        (createObjectURL sample_env)
        (pdf_size sample_env).

(** A browser whose compressor hands back something that is not an
    image. *)
Definition opaque_output_env : Env :=
  mkEnv (heic2any sample_env)
        (fun f _ => Some (File.mk (File.name f) (File.type f) 10 Undecodable))
        (getContext_2d sample_env)
        (encode sample_env)
        (readAsDataURL sample_env)
        (createObjectURL sample_env)
        (pdf_size sample_env).

(** A browser whose compressor rejects. *)
Definition failing_compressor_env : Env :=
  mkEnv (heic2any sample_env)
        (fun _ _ => None)
        (getContext_2d sample_env)
        (encode sample_env)
        (readAsDataURL sample_env)
        (createObjectURL sample_env)
        (pdf_size sample_env).

(** [sample_world] with a crop rectangle of no width. *)
Definition flat_crop_world : World :=
  mkWorld
    (mkState (Some sample_png) (Some "data:image/png;base64,holiday.png")
       None false 80 1920 1080 jpeg true None
       (Some (PixelCrop.whole 10 20 0 50)) 500000 0)
    (Some sample_image) [] [] [] [] [].

(** [sample_world] with the image element off the page. *)
Definition unmounted_world : World :=
  mkWorld sample_state None [] [] [] [] [].

(** [sample_world] with "pdf" chosen as output format. *)
Definition pdf_world : World :=
  mkWorld
    (mkState (Some sample_png) (Some "data:image/png;base64,holiday.png")
       None false 80 1920 1080 pdf false None None 500000 0)
    None [] [] [] [] [].

(** Splits on the next library result, option or format on which the
    handler in the goal branches, innermost test first. *)
Ltac no_inner_case x :=
  lazymatch x with
  | context [match _ with Resolved _ => _ | Rejected _ => _ | Unsettled => _ end] =>
      fail
  | context [match _ with Some _ => _ | None => _ end] => fail
  | context [match _ with jpeg => _ | png => _ | webp => _ | pdf => _ end] =>
      fail
  | _ => idtac
  end.

Ltac handler_case :=
  match goal with
  | |- context [match ?x with Resolved _ => _ | Rejected _ => _ | Unsettled => _ end] =>
      no_inner_case x; destruct x eqn:?
  | |- context [match ?x with Some _ => _ | None => _ end] =>
      no_inner_case x; destruct x eqn:?
  | |- context [match ?x with jpeg => _ | png => _ | webp => _ | pdf => _ end] =>
      no_inner_case x; destruct x eqn:?
  end.

Ltac handler_cases := run_handler; repeat (handler_case; run_handler).

(** Sets up a statement about [processImage] at world [w]: the world is
    opened, the hypotheses go back into the goal, and the handler is run
    through all its branches. *)
Ltac process_cases w :=
  open_world w; subst;
  repeat match goal with
         | H : ?T |- _ => match type of T with Prop => revert H end
         end;
  unfold processImage, fileToProcess;
  cbn [state imgRef completedCrop selectedFile outputFormat];
  handler_cases; intros.

(** Closes a branch of a handler run from the equations collected on the
    way. *)
Ltac close_branch :=
  repeat match goal with
         | H : Resolved _ = Resolved _ |- _ => injection H as H; subst
         | H : Some _ = Some _ |- _ => injection H as H; subst
         | H1 : ?x = Some _, H2 : ?x = _ |- _ => rewrite H1 in H2
         | H1 : ?x = Resolved _, H2 : ?x = _ |- _ => rewrite H1 in H2
         end;
  try discriminate; try congruence.

(* ================================================================== *)
(** ** The unit index of [formatBytes] *)
(* ================================================================== *)

Section LogFloor.

Variable k : Z.
Hypothesis k_ge_2 : 2 <= k.

Lemma log_floor_loop_spec (fuel : nat) :
  forall b, 1 <= b -> b < 2 ^ Z.of_nat fuel ->
    let i := JS.log_floor_loop fuel k b in
    0 <= i /\ k ^ i <= b < k ^ (i + 1).
Proof.
  induction fuel as [|fuel IH]; intros b Hb Hfuel.
  - change (2 ^ Z.of_nat 0) with 1 in Hfuel. lia.
  - cbn [JS.log_floor_loop].
    destruct (Z.ltb_spec b k) as [Hlt | Hge].
    + cbn zeta. rewrite Z.pow_0_r, Z.pow_1_r. lia.
    + assert (Hq1 : 1 <= b / k) by (apply Z.div_le_lower_bound; lia).
      assert (Hq2 : b / k < 2 ^ Z.of_nat fuel).
      { rewrite Nat2Z.inj_succ, Z.pow_succ_r in Hfuel by lia.
        apply Z.div_lt_upper_bound; [lia|].
        pose proof (Z.pow_pos_nonneg 2 (Z.of_nat fuel)). nia. }
      specialize (IH (b / k) Hq1 Hq2). cbn zeta in IH |- *.
      destruct IH as (Hi & Hlo & Hhi).
      set (j := JS.log_floor_loop fuel k (b / k)) in *.
      pose proof (Z.mul_div_le b k) as Hmd.
      pose proof (Z.mod_pos_bound b k) as Hmod.
      pose proof (Z.div_mod b k) as Hdm.
      replace (1 + j + 1) with (Z.succ (j + 1)) by lia.
      replace (1 + j) with (Z.succ j) by lia.
      rewrite !Z.pow_succ_r by lia.
      split; [lia|]. split; [nia|].
      assert (b < k * (b / k + 1)) by lia. nia.
Qed.

(** [log_floor b k] is the whole part of the base-[k] logarithm of [b]. *)
Lemma log_floor_spec (b : Z) :
  1 <= b ->
  0 <= JS.log_floor b k /\ k ^ JS.log_floor b k <= b < k ^ (JS.log_floor b k + 1).
Proof.
  intros Hb. unfold JS.log_floor.
  apply log_floor_loop_spec; [assumption|].
  rewrite Nat2Z.inj_succ, Z2Nat.id by apply Z.log2_nonneg.
  apply Z.log2_spec. lia.
Qed.

(** The characterisation determines the exponent. *)
Lemma log_floor_unique (b i : Z) :
  0 <= i -> k ^ i <= b < k ^ (i + 1) -> JS.log_floor b k = i.
Proof.
  intros Hi [Hlo Hhi].
  assert (Hb : 1 <= b).
  { pose proof (Z.pow_pos_nonneg k i). lia. }
  destruct (log_floor_spec b Hb) as (Hj & Hjlo & Hjhi).
  set (j := JS.log_floor b k) in *.
  assert (Hij : k ^ i < k ^ (j + 1)) by lia.
  assert (Hji : k ^ j < k ^ (i + 1)) by lia.
  apply Z.pow_lt_mono_r_iff in Hij; [|lia|lia].
  apply Z.pow_lt_mono_r_iff in Hji; [|lia|lia].
  lia.
Qed.

End LogFloor.

Lemma unit_index_spec (bytes : Z) :
  1 <= bytes ->
  0 <= unit_index bytes
  /\ 1024 ^ unit_index bytes <= bytes < 1024 ^ (unit_index bytes + 1).
Proof. intros H. apply log_floor_spec; lia. Qed.

Lemma index_in_range {A : Type} (arr : list A) (i : Z) :
  0 <= i < Z.of_nat (length arr) -> exists a, JS.index arr i = Some a.
Proof.
  intros [Hlo Hhi]. unfold JS.index.
  destruct (Z.ltb_spec i 0) as [Hneg | _]; [lia|].
  destruct (nth_error arr (Z.to_nat i)) as [a|] eqn:E; [now exists a|].
  apply nth_error_None in E. lia.
Qed.

Lemma index_out_of_range {A : Type} (arr : list A) (i : Z) :
  Z.of_nat (length arr) <= i -> JS.index arr i = None.
Proof.
  intros H. unfold JS.index.
  destruct (Z.ltb_spec i 0) as [_ | _]; [reflexivity|].
  apply nth_error_None. lia.
Qed.

(** C10. [formatBytes] names units only up to "GB": for 1 <= bytes <
    1024^4 the unit index lies inside [sizes] and selects a name; from
    1024^4 on the index is at least 4, the look-up falls outside the list
    and the text ends in "undefined". *)
Theorem formatBytes_units_stop_at_GB (bytes : Z) :
  1 <= bytes ->
  (bytes < 1024 ^ 4 ->
     0 <= unit_index bytes < Z.of_nat (length sizes)
     /\ exists u, JS.index sizes (unit_index bytes) = Some u)
  /\ (1024 ^ 4 <= bytes ->
        4 <= unit_index bytes
        /\ JS.index sizes (unit_index bytes) = None
        /\ exists digits, formatBytes bytes = digits ++ " undefined").
Proof.
  intros Hpos.
  destruct (unit_index_spec bytes Hpos) as (Hi & Hlo & Hhi).
  split.
  - intros Hsmall.
    assert (Hlt : unit_index bytes < 4).
    { apply (Z.pow_lt_mono_r_iff 1024); lia. }
    split; [simpl; lia|]. apply index_in_range. simpl. lia.
  - intros Hbig.
    assert (Hge : 4 <= unit_index bytes).
    { assert (H : 4 < unit_index bytes + 1)
        by (apply (Z.pow_lt_mono_r_iff 1024); lia).
      lia. }
    assert (Hnone : JS.index sizes (unit_index bytes) = None)
      by (apply index_out_of_range; simpl; lia).
    split; [exact Hge|]. split; [exact Hnone|].
    unfold formatBytes.
    assert (0 < 1024 ^ 4) by reflexivity.
    destruct (Z.eqb_spec bytes 0) as [?|_]; [lia|].
    destruct (Z.ltb_spec bytes 0) as [?|_]; [lia|].
    cbv zeta. rewrite Hnone. eexists. reflexivity.
Qed.

Lemma formatBytes_units_stop_at_GB_witness :
  (0 <= unit_index 1536 < Z.of_nat (length sizes)
   /\ exists u, JS.index sizes (unit_index 1536) = Some u)
  /\ (4 <= unit_index (1024 ^ 4)
      /\ JS.index sizes (unit_index (1024 ^ 4)) = None
      /\ exists digits, formatBytes (1024 ^ 4) = digits ++ " undefined").
Proof.
  split.
  - apply (formatBytes_units_stop_at_GB 1536); [lia | reflexivity].
  - apply (formatBytes_units_stop_at_GB (1024 ^ 4)); lia.
Defined.

(** C5. The three sample read-outs of [formatBytes]. *)
Theorem formatBytes_samples :
  formatBytes 0 = "0 Bytes"
  /\ formatBytes 1024 = "1 KB"
  /\ formatBytes 1536 = "1.5 KB".
Proof. repeat split; vm_compute; reflexivity. Qed.

(* ================================================================== *)
(** ** Numbers: whole values inside [JS.number] *)
(* ================================================================== *)

Lemma Qc_sign_of_Z (z : Z) : JS.Qc_sign (Q2Qc (inject_Z z)) = (z ?= 0).
Proof.
  unfold JS.Qc_sign, Qccompare, Q2Qc. cbn [this].
  rewrite !Qred_correct. unfold Qcompare, inject_Z. cbn [Qnum Qden].
  now rewrite Z.mul_1_r.
Qed.

Lemma of_Z_inj (a b : Z) : JS.of_Z a = JS.of_Z b -> a = b.
Proof.
  unfold JS.of_Z. intros H.
  assert (E : Q2Qc (inject_Z a) = Q2Qc (inject_Z b)) by congruence.
  apply Q2Qc_eq_iff in E. unfold Qeq, inject_Z in E. cbn in E. lia.
Qed.

(** Division of whole numbers with a positive divisor stays finite. *)
Lemma div_of_Z_pos (a b : Z) :
  0 < b ->
  JS.div (JS.of_Z a) (JS.of_Z b)
  = JS.Finite (Q2Qc (inject_Z a) / Q2Qc (inject_Z b))%Qc.
Proof.
  intros Hb. unfold JS.div, JS.of_Z. rewrite Qc_sign_of_Z.
  destruct (Z.compare_spec b 0); try lia; reflexivity.
Qed.

(** [Math.round] of an expression over [Qc] is [round_half_up] of the same
    expression over [Q]. *)
Lemma Math_round_Finite (x : Qc) (q : Q) :
  (this x == q)%Q -> JS.Math_round (JS.Finite x) = JS.of_Z (round_half_up q).
Proof.
  intros H. unfold JS.Math_round, round_half_up. f_equal.
  apply Qfloor_comp. unfold Qcplus, Q2Qc. cbn [this].
  rewrite !Qred_correct, H. reflexivity.
Qed.

(* ================================================================== *)
(** ** [compressionRatio] *)
(* ================================================================== *)




(** Whole numbers of bytes and the figures 1 and 100 are doubles of their
    own value. *)
Lemma of_Z_binary64_samples :
  Binary64.to_Q (Binary64.of_Z 1) == 1
  /\ Binary64.to_Q (Binary64.of_Z 100) == 100
  /\ Binary64.to_Q (Binary64.of_Z 170000) == 170000
  /\ Binary64.to_Q (Binary64.of_Z 400000) == 400000.
Proof. repeat split; vm_compute; reflexivity. Qed.

(** In double precision the percentage saved from 400000 to 170000 bytes
    falls just short of 57.5 before it is rounded, so that 57 is shown;
    in exact arithmetic it is 57.5, which rounds to 58. *)
Lemma percent_saved_binary64_below_half :
  percent_saved_binary64 400000 170000 = Binary64.of_Z 57
  /\ percent_saved_binary64 40 17 = Binary64.of_Z 57
  /\ percent_saved 400000 170000 = 58.
Proof. repeat split; vm_compute; reflexivity. Qed.



(* ================================================================== *)
(** ** The crop extractor *)
(* ================================================================== *)

Lemma Qred_inject_Z (z : Z) : Qred (inject_Z z) = inject_Z z.
Proof.
  apply Qred_identity. unfold inject_Z. cbn [Qnum Qden]. apply Z.gcd_1_r.
Qed.

Lemma this_whole (z : Z) : this (JS.whole z) = inject_Z z.
Proof. unfold JS.whole, Q2Qc. cbn [this]. apply Qred_inject_Z. Qed.

Lemma whole_mul (a b : Z) : (JS.whole a * JS.whole b)%Qc = JS.whole (a * b).
Proof.
  apply Qc_is_canon. unfold Qcmult, Q2Qc. cbn [this].
  rewrite Qred_correct, !this_whole, inject_Z_mult. reflexivity.
Qed.

(** Order against a whole number, on numerator and denominator. *)
Lemma whole_le (a : Z) (q : Qc) :
  (JS.whole a <= q)%Qc <-> a * Z.pos (Qden q) <= Qnum q.
Proof.
  unfold Qcle. rewrite this_whole. unfold Qle, inject_Z. cbn [Qnum Qden].
  rewrite Z.mul_1_r. reflexivity.
Qed.

Lemma le_whole (q : Qc) (b : Z) :
  (q <= JS.whole b)%Qc <-> Qnum q <= b * Z.pos (Qden q).
Proof.
  unfold Qcle. rewrite this_whole. unfold Qle, inject_Z. cbn [Qnum Qden].
  rewrite Z.mul_1_r. reflexivity.
Qed.



(** A number between 0 and 2147483647 is kept by a canvas attribute up
    to its fraction. *)
Lemma reflect_unsigned_long_floor (default : Z) (q : Qc) :
  (JS.whole 0 <= q)%Qc -> (q <= JS.whole 2147483647)%Qc ->
  Canvas.reflect_unsigned_long default (JS.Finite q) = Qfloor q.
Proof.
  intros Hlo Hhi. apply whole_le in Hlo. apply le_whole in Hhi.
  unfold Canvas.reflect_unsigned_long, JS.truncate.
  destruct q as [[n d] Hcanon]. cbn [this Qnum Qden Qfloor] in *.
  rewrite Z.quot_div_nonneg by lia.
  assert (Hq : 0 <= n / Z.pos d <= 2147483647).
  { split; [apply Z.div_pos; lia|].
    apply Z.div_le_upper_bound; lia. }
  rewrite Z.mod_small by lia.
  destruct (Z.leb_spec (n / Z.pos d) 2147483647); [reflexivity | lia].
Qed.

(** A whole number in that range is kept as it is. *)
Lemma reflect_unsigned_long_whole (default z : Z) :
  0 <= z <= 2147483647 ->
  Canvas.reflect_unsigned_long default (JS.Finite (JS.whole z)) = z.
Proof.
  intros Hz. rewrite reflect_unsigned_long_floor.
  - rewrite this_whole. apply Qfloor_Z.
  - apply whole_le. rewrite this_whole. cbn. lia.
  - apply le_whole. rewrite this_whole. cbn. lia.
Qed.

(** Scaling by the ratio of a doubled size to the size doubles. *)
Lemma mul_double_scale (v : Qc) (size : Z) :
  0 < size ->
  JS.mul (JS.Finite v) (JS.div (JS.of_Z (2 * size)) (JS.of_Z size))
  = JS.Finite (JS.whole 2 * v)%Qc.
Proof.
  intros Hsize. rewrite div_of_Z_pos by assumption.
  unfold JS.mul. f_equal. apply Qc_is_canon.
  unfold Qcmult, Qcdiv, Qcmult, Qcinv, JS.whole, Q2Qc. cbn [this].
  rewrite !Qred_correct, !inject_Z_mult.
  field. intros H. unfold Qeq, inject_Z in H. cbn in H. lia.
Qed.

Lemma getCroppedImage_canvas_eq (env : Env) (image : HTMLImageElement.t)
    (crop : PixelCrop.t) :
  getContext_2d env (sized_canvas crop) = true ->
  let scaleX :=
    JS.div (JS.of_Z (HTMLImageElement.naturalWidth image))
           (JS.of_Z (HTMLImageElement.width image)) in
  let scaleY :=
    JS.div (JS.of_Z (HTMLImageElement.naturalHeight image))
           (JS.of_Z (HTMLImageElement.height image)) in
  getCroppedImage_canvas env image crop
  = Resolved
      (Canvas.mk (Canvas.width (sized_canvas crop))
         (Canvas.height (sized_canvas crop))
         [Canvas.mkDrawImage
            (JS.mul (JS.Finite (PixelCrop.x crop)) scaleX)
            (JS.mul (JS.Finite (PixelCrop.y crop)) scaleY)
            (JS.mul (JS.Finite (PixelCrop.width crop)) scaleX)
            (JS.mul (JS.Finite (PixelCrop.height crop)) scaleY)
            (JS.of_Z 0) (JS.of_Z 0)
            (JS.Finite (PixelCrop.width crop))
            (JS.Finite (PixelCrop.height crop))]).
Proof.
  intros Hctx. unfold getCroppedImage_canvas.
  unfold sized_canvas in Hctx. cbv zeta. rewrite Hctx. reflexivity.
Qed.

(** The size of the canvas for a crop inside a displayed image. *)
Lemma sized_canvas_within_bounds (image : HTMLImageElement.t)
    (crop : PixelCrop.t) :
  within_displayed_bounds image crop ->
  display_fits_canvas image ->
  Canvas.width (sized_canvas crop) = Qfloor (PixelCrop.width crop)
  /\ Canvas.height (sized_canvas crop) = Qfloor (PixelCrop.height crop).
Proof.
  intros (Hx & Hy & Hw & Hh & Hxw & Hyh) [Hfw Hfh].
  assert (Hbound : forall a b : Qc, forall limit : Z,
             (JS.whole 0 <= a)%Qc -> (a + b <= JS.whole limit)%Qc ->
             limit <= 2147483647 -> (b <= JS.whole 2147483647)%Qc).
  { intros a b limit Ha Hab Hlimit.
    apply Qcle_trans with (a + b)%Qc.
    - rewrite <- (Qcplus_0_l b) at 1.
      apply Qcplus_le_compat; [exact Ha | apply Qcle_refl].
    - apply Qcle_trans with (JS.whole limit); [exact Hab|].
      apply le_whole. rewrite this_whole. cbn. lia. }
  unfold sized_canvas, Canvas.set_height, Canvas.set_width.
  cbn [Canvas.width Canvas.height].
  split; apply reflect_unsigned_long_floor; eauto.
Qed.

(** C1. With a 2d context at hand, [getCroppedImage] draws exactly one
    region of the native image, the crop rectangle scaled by
    naturalWidth / width and naturalHeight / height; when the display is
    exactly half the native size, that region's coordinates and
    dimensions are twice the crop rectangle's. *)
Theorem getCroppedImage_source_rectangle (env : Env)
    (image : HTMLImageElement.t) (crop : PixelCrop.t) :
  getContext_2d env (sized_canvas crop) = true ->
  exists canvas d,
    getCroppedImage_canvas env image crop = Resolved canvas
    /\ Canvas.drawn canvas = [d]
    /\ (let scaleX :=
          JS.div (JS.of_Z (HTMLImageElement.naturalWidth image))
                 (JS.of_Z (HTMLImageElement.width image)) in
        let scaleY :=
          JS.div (JS.of_Z (HTMLImageElement.naturalHeight image))
                 (JS.of_Z (HTMLImageElement.height image)) in
        Canvas.sx d = JS.mul (JS.Finite (PixelCrop.x crop)) scaleX
        /\ Canvas.sy d = JS.mul (JS.Finite (PixelCrop.y crop)) scaleY
        /\ Canvas.sWidth d = JS.mul (JS.Finite (PixelCrop.width crop)) scaleX
        /\ Canvas.sHeight d
           = JS.mul (JS.Finite (PixelCrop.height crop)) scaleY)
    /\ (half_size_display image ->
        Canvas.sx d = JS.Finite (JS.whole 2 * PixelCrop.x crop)%Qc
        /\ Canvas.sy d = JS.Finite (JS.whole 2 * PixelCrop.y crop)%Qc
        /\ Canvas.sWidth d = JS.Finite (JS.whole 2 * PixelCrop.width crop)%Qc
        /\ Canvas.sHeight d
           = JS.Finite (JS.whole 2 * PixelCrop.height crop)%Qc).
Proof.
  intros Hctx. eexists. eexists.
  split; [apply getCroppedImage_canvas_eq; exact Hctx|].
  cbn [Canvas.drawn Canvas.sx Canvas.sy Canvas.sWidth Canvas.sHeight].
  split; [reflexivity|]. split; [repeat split|].
  intros (Hw & Hh & Hnw & Hnh). rewrite Hnw, Hnh.
  repeat split; apply mul_double_scale; assumption.
Qed.

Lemma getCroppedImage_source_rectangle_witness :
  exists canvas d,
    getCroppedImage_canvas sample_env sample_image sample_crop = Resolved canvas
    /\ Canvas.drawn canvas = [d]
    /\ Canvas.sx d = JS.of_Z 20 /\ Canvas.sy d = JS.of_Z 40
    /\ Canvas.sWidth d = JS.of_Z 200 /\ Canvas.sHeight d = JS.of_Z 100.
Proof.
  destruct (getCroppedImage_source_rectangle sample_env sample_image
              sample_crop eq_refl)
    as (canvas & d & Hrun & Hdrawn & _ & Hhalf).
  exists canvas, d. split; [exact Hrun|]. split; [exact Hdrawn|].
  destruct Hhalf as (Hsx & Hsy & Hsw & Hsh);
    [unfold half_size_display; simpl; lia|].
  unfold sample_crop, PixelCrop.whole in Hsx, Hsy, Hsw, Hsh.
  cbn [PixelCrop.x PixelCrop.y PixelCrop.width PixelCrop.height]
    in Hsx, Hsy, Hsw, Hsh.
  rewrite whole_mul in Hsx, Hsy, Hsw, Hsh.
  repeat split; assumption.
Defined.

(** C2, as the code has it.  For a crop rectangle inside the displayed
    image, the canvas made by [getCroppedImage], and with it the JPEG
    raster read back from it, is as wide and as high as the rectangle in
    display pixels with the fractions dropped, so exactly as wide and as
    high as a rectangle of whole pixels; it does not take the scaled size
    of the source region.  The draw is aimed at the rectangle's own width
    and height from the origin. *)
Theorem getCroppedImage_canvas_size (env : Env) (image : HTMLImageElement.t)
    (crop : PixelCrop.t) :
  within_displayed_bounds image crop ->
  display_fits_canvas image ->
  getContext_2d env (sized_canvas crop) = true ->
  exists canvas d,
    getCroppedImage_canvas env image crop = Resolved canvas
    /\ Canvas.width canvas = Qfloor (PixelCrop.width crop)
    /\ Canvas.height canvas = Qfloor (PixelCrop.height crop)
    /\ (forall w h : Z,
          PixelCrop.width crop = JS.whole w ->
          PixelCrop.height crop = JS.whole h ->
          Canvas.width canvas = w /\ Canvas.height canvas = h)
    /\ Canvas.drawn canvas = [d]
    /\ (Canvas.dx d, Canvas.dy d) = (JS.of_Z 0, JS.of_Z 0)
    /\ Canvas.dWidth d = JS.Finite (PixelCrop.width crop)
    /\ Canvas.dHeight d = JS.Finite (PixelCrop.height crop)
    /\ (forall blob, getCroppedImage env image crop = Resolved blob ->
          Blob.content blob
          = ImageData "image/jpeg" (Qfloor (PixelCrop.width crop))
              (Qfloor (PixelCrop.height crop))).
Proof.
  intros Hin Hfits Hctx.
  destruct (sized_canvas_within_bounds image crop Hin Hfits) as [Hw Hh].
  eexists. eexists.
  split; [apply getCroppedImage_canvas_eq; exact Hctx|].
  cbn [Canvas.width Canvas.height Canvas.drawn Canvas.dx Canvas.dy
       Canvas.dWidth Canvas.dHeight].
  split; [exact Hw|]. split; [exact Hh|].
  split.
  { intros w h Ew Eh. rewrite Hw, Hh, Ew, Eh, !this_whole, !Qfloor_Z.
    split; reflexivity. }
  repeat (split; [reflexivity|]).
  intros blob. unfold getCroppedImage.
  rewrite (getCroppedImage_canvas_eq env image crop Hctx).
  unfold toBlob. cbn [Canvas.width Canvas.height].
  destruct (_ || _); [discriminate|].
  destruct (encode env _ _); [|discriminate].
  intros H. injection H as <-. cbn [Blob.content].
  f_equal; [exact Hw | exact Hh].
Qed.

Lemma getCroppedImage_canvas_size_witness :
  within_displayed_bounds sample_image sample_crop
  /\ exists canvas d,
       getCroppedImage_canvas sample_env sample_image sample_crop
       = Resolved canvas
       /\ Canvas.width canvas = 100 /\ Canvas.height canvas = 50
       /\ Canvas.drawn canvas = [d]
       /\ Canvas.dWidth d = JS.of_Z 100 /\ Canvas.dHeight d = JS.of_Z 50.
Proof.
  assert (Hin : within_displayed_bounds sample_image sample_crop)
    by (repeat split; vm_compute; discriminate).
  assert (Hfits : display_fits_canvas sample_image)
    by (split; simpl; lia).
  split; [exact Hin|].
  destruct (getCroppedImage_canvas_size sample_env sample_image sample_crop
              Hin Hfits eq_refl)
    as (canvas & d & Hrun & _ & _ & Hwhole & Hdrawn & _ & Hdw & Hdh & _).
  destruct (Hwhole 100 50 eq_refl eq_refl) as [Hw Hh].
  exists canvas, d. split; [exact Hrun|].
  split; [exact Hw|]. split; [exact Hh|]. split; [exact Hdrawn|].
  split; [exact Hdw | exact Hdh].
Defined.

(** C2 as stated fails: [fractional_crop] lies inside the displayed
    [sample_image] and is 100.5 by 50.75 pixels, and the canvas made for
    it is 100 by 50 pixels. *)
Lemma getCroppedImage_canvas_drops_fractions :
  within_displayed_bounds sample_image fractional_crop
  /\ exists canvas,
       getCroppedImage_canvas sample_env sample_image fractional_crop
       = Resolved canvas
       /\ Canvas.width canvas = 100 /\ Canvas.height canvas = 50
       /\ JS.whole (Canvas.width canvas) <> PixelCrop.width fractional_crop
       /\ JS.whole (Canvas.height canvas) <> PixelCrop.height fractional_crop
       /\ getCroppedImage sample_env sample_image fractional_crop
          = Resolved (Blob.mk "image/jpeg" 5000
                        (ImageData "image/jpeg" 100 50)).
Proof.
  split; [repeat split; vm_compute; discriminate|].
  eexists. split; [reflexivity|].
  split; [reflexivity|]. split; [reflexivity|].
  split; [|split; [|reflexivity]];
    intros H; apply (f_equal this) in H; vm_compute in H; discriminate.
Qed.

(* ================================================================== *)
(** ** The PDF wrapper *)
(* ================================================================== *)

(** The orientation picked by [convertToPDF] never makes the library
    exchange the two page dimensions. *)
Lemma page_size_matching_orientation (w h : Z) :
  jsPDF.page_size (if w >? h then jsPDF.landscape else jsPDF.portrait) (w, h)
  = (w, h).
Proof.
  unfold jsPDF.page_size.
  destruct (Z.gtb_spec w h).
  - destruct (Z.ltb_spec w h); [lia | reflexivity].
  - destruct (Z.ltb_spec h w); [lia | reflexivity].
Qed.

(** C3. For a compressed image of [w] by [h] pixels, [convertToPDF]
    resolves with a PDF blob whose document has a single page of size
    exactly ([w], [h]), requested as landscape if and only if [w > h]
    (portrait otherwise), carrying one image placed at the origin and as
    large as the page. *)
Theorem convertToPDF_single_full_page (env : Env) (file : File.t)
    (encoding : string) (w h : Z) :
  File.content file = ImageData encoding w h ->
  exists doc page image,
    convertToPDF env file
    = Resolved (Blob.mk "application/pdf" (pdf_size env doc) (Document doc))
    /\ jsPDF.pages doc = [page]
    /\ jsPDF.width page = w /\ jsPDF.height page = h
    /\ (jsPDF.orientation doc = jsPDF.landscape <-> w > h)
    /\ (jsPDF.orientation doc = jsPDF.portrait <-> w <= h)
    /\ jsPDF.images page = [image]
    /\ jsPDF.x image = 0 /\ jsPDF.y image = 0
    /\ jsPDF.w image = jsPDF.width page /\ jsPDF.h image = jsPDF.height page
    /\ jsPDF.imageData image = readAsDataURL env file.
Proof.
  intros Hcontent. unfold convertToPDF. rewrite Hcontent. cbv zeta.
  unfold jsPDF.new. rewrite page_size_matching_orientation.
  unfold jsPDF.addImage.
  cbn [jsPDF.pages jsPDF.on_last_page jsPDF.width jsPDF.height jsPDF.images
       jsPDF.orientation jsPDF.unit app].
  eexists. eexists. eexists.
  split; [reflexivity|].
  cbn [jsPDF.pages jsPDF.width jsPDF.height jsPDF.images jsPDF.orientation
       jsPDF.x jsPDF.y jsPDF.w jsPDF.h jsPDF.imageData].
  split; [reflexivity|]. split; [reflexivity|]. split; [reflexivity|].
  split; [|split].
  - destruct (Z.gtb_spec w h); split; intros; (reflexivity || lia || discriminate).
  - destruct (Z.gtb_spec w h); split; intros; (reflexivity || lia || discriminate).
  - repeat split.
Qed.

Lemma convertToPDF_single_full_page_witness :
  exists doc page image,
    convertToPDF sample_env sample_png
    = Resolved (Blob.mk "application/pdf" (pdf_size sample_env doc)
                  (Document doc))
    /\ jsPDF.pages doc = [page]
    /\ jsPDF.width page = 2000 /\ jsPDF.height page = 1000
    /\ (jsPDF.orientation doc = jsPDF.landscape <-> 2000 > 1000)
    /\ (jsPDF.orientation doc = jsPDF.portrait <-> 2000 <= 1000)
    /\ jsPDF.images page = [image]
    /\ jsPDF.x image = 0 /\ jsPDF.y image = 0
    /\ jsPDF.w image = jsPDF.width page /\ jsPDF.h image = jsPDF.height page
    /\ jsPDF.imageData image = readAsDataURL sample_env sample_png.
Proof.
  exact (convertToPDF_single_full_page sample_env sample_png "image/png"
           2000 1000 eq_refl).
Defined.

(* ================================================================== *)
(** ** Strings: suffixes and lower-casing *)
(* ================================================================== *)

Lemma substring_whole (s : string) : substring 0 (String.length s) s = s.
Proof. induction s as [|c s IH]; simpl; [reflexivity | now rewrite IH]. Qed.

Lemma substring_after_prefix (p t : string) :
  substring (String.length p) (String.length t) (p ++ t) = t.
Proof. induction p as [|c p IH]; simpl; [apply substring_whole | exact IH]. Qed.

Lemma substring_split (s : string) :
  forall k, (k <= String.length s)%nat ->
    s = substring 0 k s ++ substring k (String.length s - k) s.
Proof.
  induction s as [|c s IH]; intros k Hk.
  - destruct k; reflexivity.
  - destruct k as [|k].
    + simpl. now rewrite substring_whole.
    + simpl in Hk |- *. f_equal. apply IH. lia.
Qed.

Lemma length_append (a b : string) :
  String.length (a ++ b) = (String.length a + String.length b)%nat.
Proof. induction a as [|c a IH]; simpl; [reflexivity | now rewrite IH]. Qed.

(** [endsWith] holds exactly of the strings that have the suffix. *)
Lemma endsWith_spec (s t : string) :
  JS.endsWith s t = true <-> exists p, s = p ++ t.
Proof.
  unfold JS.endsWith. split.
  - destruct (Nat.leb_spec (String.length t) (String.length s)) as [Hle|];
      [|discriminate].
    intros H. apply String.eqb_eq in H.
    remember (String.length t) as m eqn:Hm.
    exists (substring 0 (String.length s - m) s).
    rewrite <- H.
    pose proof (substring_split s (String.length s - m)) as Hsplit.
    replace (String.length s - (String.length s - m))%nat with m
      in Hsplit by lia.
    apply Hsplit. lia.
  - intros [p ->]. rewrite length_append.
    destruct (Nat.leb_spec (String.length t)
                (String.length p + String.length t)); [|lia].
    replace (String.length p + String.length t - String.length t)%nat
      with (String.length p) by lia.
    rewrite substring_after_prefix. apply String.eqb_refl.
Qed.

Lemma toLowerCase_append (a b : string) :
  JS.toLowerCase (a ++ b) = JS.toLowerCase a ++ JS.toLowerCase b.
Proof. induction a as [|c a IH]; simpl; [reflexivity | now rewrite IH]. Qed.

Lemma toLowerCase_split (p t : string) :
  forall s, JS.toLowerCase s = p ++ t ->
    exists s1 s2, s = s1 ++ s2
                  /\ JS.toLowerCase s1 = p /\ JS.toLowerCase s2 = t.
Proof.
  induction p as [|c p IH]; intros s H.
  - exists "", s. repeat split. exact H.
  - destruct s as [|c' s]; [discriminate|].
    simpl in H. injection H as Hc Hs.
    destruct (IH s Hs) as (s1 & s2 & -> & H1 & H2).
    exists (String c' s1), s2. simpl. rewrite Hc, H1. repeat split. exact H2.
Qed.

(** The test made by [handleFileSelect], in words. *)
Lemma is_heic_spec (file : File.t) :
  is_heic file = true <-> heic_by_type_or_name file.
Proof.
  unfold is_heic, heic_by_type_or_name.
  rewrite orb_true_iff, String.eqb_eq, endsWith_spec. split.
  - intros [Htype | [p Hname]]; [now left | right].
    destruct (toLowerCase_split p ".heic" _ Hname) as (s1 & s2 & Hs & _ & H2).
    now exists s1, s2.
  - intros [Htype | (stem & ext & Hname & Hext)]; [now left | right].
    exists (JS.toLowerCase stem).
    now rewrite Hname, toLowerCase_append, Hext.
Qed.

(* ================================================================== *)
(** ** [handleFileSelect] *)
(* ================================================================== *)

(** A file that needs no decoding is kept and its read is started. *)
Lemma handleFileSelect_plain (env : Env) (file : File.t) (rest : list File.t)
    (w : World) :
  is_heic file = false ->
  handleFileSelect env (file :: rest) w
  = (Resolved tt,
     mkWorld (selected_state (state w) file (File.size file)) (imgRef w)
       (alerts w) (console w) (reading w ++ [ReadOriginal file])
       (heic2any_calls w) (imageCompression_calls w)).
Proof.
  intros Hplain. open_world w. unfold handleFileSelect. rewrite Hplain.
  run_handler. reflexivity.
Qed.

(** A HEIC file that decodes is replaced by its JPEG rendition. *)
Lemma handleFileSelect_decoded (env : Env) (file : File.t)
    (rest : list File.t) (w : World) (blob : Blob.t) :
  is_heic file = true ->
  heic2any env file = Some blob ->
  let converted :=
    File.new blob (replace_heic_suffix (File.name file)) "image/jpeg" in
  handleFileSelect env (file :: rest) w
  = (Resolved tt,
     mkWorld (selected_state (state w) converted (File.size file)) (imgRef w)
       (alerts w) (console w) (reading w ++ [ReadOriginal converted])
       (heic2any_calls w ++ [file]) (imageCompression_calls w)).
Proof.
  intros Hheic Hblob. open_world w. unfold handleFileSelect.
  rewrite Hheic. run_handler. rewrite Hblob. reflexivity.
Qed.

(** A HEIC file that does not decode: the failure is logged and
    alerted, no read is started. *)
Lemma handleFileSelect_undecoded (env : Env) (file : File.t)
    (rest : list File.t) (w : World) :
  is_heic file = true ->
  heic2any env file = None ->
  handleFileSelect env (file :: rest) w
  = (Resolved tt,
     mkWorld (selected_state (state w) file (File.size file)) (imgRef w)
       (alerts w ++ ["Error converting HEIC file"])
       (console w ++ ["HEIC conversion error: heic2any failed"])
       (reading w) (heic2any_calls w ++ [file]) (imageCompression_calls w)).
Proof.
  intros Hheic Hnone. open_world w. unfold handleFileSelect.
  rewrite Hheic. run_handler. rewrite Hnone. reflexivity.
Qed.

(** Whatever the file, the handler ends in a [selected_state]. *)
Lemma handleFileSelect_state (env : Env) (file : File.t) (rest : list File.t)
    (w : World) :
  fst (handleFileSelect env (file :: rest) w) = Resolved tt
  /\ exists chosen,
       state (snd (handleFileSelect env (file :: rest) w))
       = selected_state (state w) chosen (File.size file).
Proof.
  destruct (is_heic file) eqn:Hheic.
  - destruct (heic2any env file) as [blob|] eqn:Hdec.
    + rewrite (handleFileSelect_decoded env file rest w blob Hheic Hdec).
      split; [reflexivity | eexists; reflexivity].
    + rewrite (handleFileSelect_undecoded env file rest w Hheic Hdec).
      split; [reflexivity | eexists; reflexivity].
  - rewrite (handleFileSelect_plain env file rest w Hheic).
    split; [reflexivity | eexists; reflexivity].
Qed.

(** An event without a file changes nothing. *)
Lemma handleFileSelect_no_file (env : Env) (w : World) :
  handleFileSelect env [] w = (Resolved tt, w).
Proof. reflexivity. Qed.

(** C6. Every selection of a file, of whatever type, ends with the
    processed image reset to none, the completed crop cleared and crop
    mode off. *)
Theorem handleFileSelect_clears_output_and_crop (env : Env) (file : File.t)
    (rest : list File.t) (w : World) :
  let after := handleFileSelect env (file :: rest) w in
  fst after = Resolved tt
  /\ processedImage (state (snd after)) = None
  /\ completedCrop (state (snd after)) = None
  /\ showCrop (state (snd after)) = false.
Proof.
  cbv zeta.
  destruct (handleFileSelect_state env file rest w) as [Hdone [chosen Hst]].
  rewrite Hst. repeat split. exact Hdone.
Qed.

(** The read started by the handler completes without undoing that. *)
Lemma handleFileSelect_clears_after_load (env : Env) (file : File.t)
    (rest : list File.t) (w : World) :
  reading w = [] ->
  let settled := finish_reads env (snd (handleFileSelect env (file :: rest) w)) in
  processedImage (state settled) = None
  /\ completedCrop (state settled) = None
  /\ showCrop (state settled) = false.
Proof.
  intros Hidle. cbv zeta.
  destruct (is_heic file) eqn:Hheic.
  - destruct (heic2any env file) as [blob|] eqn:Hdec.
    + rewrite (handleFileSelect_decoded env file rest w blob Hheic Hdec).
      unfold finish_reads. cbn [snd reading]. rewrite Hidle.
      repeat split.
    + rewrite (handleFileSelect_undecoded env file rest w Hheic Hdec).
      unfold finish_reads. cbn [snd reading]. rewrite Hidle.
      repeat split.
  - rewrite (handleFileSelect_plain env file rest w Hheic).
    unfold finish_reads. cbn [snd reading]. rewrite Hidle.
    repeat split.
Qed.

(** C7, as the code has it.  When a HEIC file fails to decode, the
    handler alerts the user and keeps the original image, starts no read
    and leaves every setting alone; the processed output and the crop
    session are reset as on any selection. *)
Theorem handleFileSelect_decode_failure (env : Env) (file : File.t)
    (rest : list File.t) (w : World) :
  is_heic file = true ->
  heic2any env file = None ->
  let after := handleFileSelect env (file :: rest) w in
  fst after = Resolved tt
  /\ alerts (snd after) = (alerts w ++ ["Error converting HEIC file"])%list
  /\ originalImage (state (snd after)) = originalImage (state w)
  /\ reading (snd after) = reading w
  /\ (quality (state (snd after)), maxWidth (state (snd after)),
      maxHeight (state (snd after)), outputFormat (state (snd after)))
     = (quality (state w), maxWidth (state w), maxHeight (state w),
        outputFormat (state w))
  /\ processedImage (state (snd after)) = None
  /\ completedCrop (state (snd after)) = None
  /\ showCrop (state (snd after)) = false.
Proof.
  intros Hheic Hnone. cbv zeta.
  rewrite (handleFileSelect_undecoded env file rest w Hheic Hnone).
  repeat split.
Qed.

Lemma handleFileSelect_decode_failure_witness :
  let after := handleFileSelect sample_env [sample_heic] sample_world in
  alerts (snd after) = ["Error converting HEIC file"]
  /\ originalImage (state (snd after))
     = Some "data:image/png;base64,holiday.png"
  /\ processedImage (state (snd after)) = None.
Proof.
  destruct (handleFileSelect_decode_failure sample_env sample_heic []
              sample_world eq_refl eq_refl)
    as (_ & Halert & Himage & _ & _ & Hprocessed & _).
  cbv zeta. split; [exact Halert|]. split; [exact Himage | exact Hprocessed].
Defined.

(** C7 as stated fails: after the failed decoding of [sample_heic] the
    selected file, the original size, the processed output and the crop
    state all differ from what they were. *)
Lemma handleFileSelect_decode_failure_changes_state :
  is_heic sample_heic = true
  /\ heic2any sample_env sample_heic = None
  /\ let before := state sample_world in
     let after :=
       state (snd (handleFileSelect sample_env [sample_heic] sample_world)) in
     after <> before
     /\ selectedFile before = Some sample_png
     /\ selectedFile after = Some sample_heic
     /\ originalSize before = 500000 /\ originalSize after = 900000
     /\ processedImage before <> None /\ processedImage after = None
     /\ completedCrop before <> None /\ completedCrop after = None
     /\ showCrop before = true /\ showCrop after = false.
Proof.
  split; [reflexivity|]. split; [reflexivity|]. cbv zeta.
  split.
  - intros H. apply (f_equal showCrop) in H. vm_compute in H. discriminate.
  - repeat split; try reflexivity; vm_compute; discriminate.
Qed.





(* ================================================================== *)
(** ** [processImage] *)
(* ================================================================== *)

(** A blob delivered by [getCroppedImage] is a JPEG of the canvas. *)
Lemma getCroppedImage_is_jpeg (env : Env) (image : HTMLImageElement.t)
    (crop : PixelCrop.t) (blob : Blob.t) :
  getCroppedImage env image crop = Resolved blob ->
  Blob.type blob = "image/jpeg"
  /\ Blob.content blob
     = ImageData "image/jpeg" (Canvas.width (sized_canvas crop))
         (Canvas.height (sized_canvas crop)).
Proof.
  unfold getCroppedImage, getCroppedImage_canvas, sized_canvas. cbv zeta.
  destruct (negb _); [discriminate|].
  unfold toBlob. cbn [Canvas.width Canvas.height Canvas.drawImage
                      Canvas.set_width Canvas.set_height Canvas.create].
  destruct (_ || _); [discriminate|].
  destruct (encode env _ _); [|discriminate].
  intros H. injection H as <-. split; reflexivity.
Qed.

(** What [processImage] asks of the compressor when a crop is applied. *)
Lemma processImage_cropped_call (env : Env) (w : World)
    (selected : File.t) (completed : PixelCrop.t)
    (current : HTMLImageElement.t) (blob : Blob.t) :
  selectedFile (state w) = Some selected ->
  completedCrop (state w) = Some completed ->
  imgRef w = Some current ->
  getCroppedImage env current completed = Resolved blob ->
  imageCompression_calls (snd (processImage env w))
  = (imageCompression_calls w
     ++ [(File.new blob (File.name selected) (File.type selected),
          compression_options (state w))])%list.
Proof.
  intros Hsel Hcrop Href Hblob. open_world w. subst.
  unfold processImage. run_handler. rewrite Hblob.
  destruct (imageCompression env _ _) as [compressed|]; [|reflexivity].
  match goal with |- context [match ?f with jpeg => _ | _ => _ end] =>
    destruct f
  end; try reflexivity.
  destruct (convertToPDF env compressed); reflexivity.
Qed.

(** C9. When [processImage] applies a crop, the blob cut out by
    [getCroppedImage] is a JPEG whatever the output format, and the file
    handed to the compressor wraps that blob under the selected file's
    name and declared type; so for a selected file that is not declared
    "image/jpeg" the declared type and the actual encoding differ. *)
Theorem processImage_crop_wrapper (env : Env) (w : World)
    (selected : File.t) (completed : PixelCrop.t)
    (current : HTMLImageElement.t) (blob : Blob.t) :
  selectedFile (state w) = Some selected ->
  completedCrop (state w) = Some completed ->
  imgRef w = Some current ->
  getCroppedImage env current completed = Resolved blob ->
  exists wrapper,
    imageCompression_calls (snd (processImage env w))
    = (imageCompression_calls w
       ++ [(wrapper, compression_options (state w))])%list
    /\ Blob.type blob = "image/jpeg"
    /\ encoding_of (Blob.content blob) = Some "image/jpeg"
    /\ File.content wrapper = Blob.content blob
    /\ File.name wrapper = File.name selected
    /\ File.type wrapper = File.type selected
    /\ (File.type selected <> "image/jpeg" ->
        encoding_of (File.content wrapper) <> Some (File.type wrapper)).
Proof.
  intros Hsel Hcrop Href Hblob.
  destruct (getCroppedImage_is_jpeg env current completed blob Hblob)
    as [Htype Hcontent].
  exists (File.new blob (File.name selected) (File.type selected)).
  split; [now apply (processImage_cropped_call env w selected completed current)|].
  unfold File.new.
  cbn [File.content File.name File.type].
  rewrite Hcontent. cbn [encoding_of].
  repeat split; try assumption.
  intros Hdiff H. injection H as H. now apply Hdiff.
Qed.

Lemma processImage_crop_wrapper_witness :
  exists wrapper,
    imageCompression_calls (snd (processImage sample_env sample_world))
    = [(wrapper, compression_options sample_state)]
    /\ File.name wrapper = "holiday.png"
    /\ File.type wrapper = "image/png"
    /\ encoding_of (File.content wrapper) = Some "image/jpeg"
    /\ encoding_of (File.content wrapper) <> Some (File.type wrapper).
Proof.
  destruct (processImage_crop_wrapper sample_env sample_world sample_png
              sample_crop sample_image
              (Blob.mk "image/jpeg" 5000 (ImageData "image/jpeg" 100 50))
              eq_refl eq_refl eq_refl eq_refl)
    as (wrapper & Hcall & _ & Henc & Hcontent & Hname & Htype & Hdiff).
  exists wrapper. split; [exact Hcall|]. split; [exact Hname|].
  split; [exact Htype|]. split; [now rewrite Hcontent|].
  apply Hdiff. discriminate.
Defined.

(** With "pdf" as output format and a compressor that resolves,
    [processImage] stores the size and the object URL of the blob made by
    [convertToPDF]. *)
Lemma processImage_pdf (env : Env) (w : World) (selected compressed : File.t)
    (pdfBlob : Blob.t) :
  selectedFile (state w) = Some selected ->
  completedCrop (state w) = None ->
  outputFormat (state w) = pdf ->
  imageCompression env selected (compression_options (state w))
  = Some compressed ->
  convertToPDF env compressed = Resolved pdfBlob ->
  let after := snd (processImage env w) in
  processedImage (state after) = Some (createObjectURL env pdfBlob)
  /\ compressedSize (state after) = Blob.size pdfBlob
  /\ isProcessing (state after) = false
  /\ alerts after = alerts w.
Proof.
  intros Hsel Hcrop Hfmt Hcomp Hpdf. cbv zeta. open_world w. subst.
  unfold processImage. run_handler. rewrite Hcomp. run_handler.
  rewrite Hpdf. repeat split.
Qed.

(** A failure anywhere in the pipeline is alerted and leaves the state
    as it was, the busy flag being lowered again. *)
Lemma processImage_failure (env : Env) (w : World) (selected : File.t) :
  selectedFile (state w) = Some selected ->
  completedCrop (state w) = None ->
  imageCompression env selected (compression_options (state w)) = None ->
  let after := snd (processImage env w) in
  alerts after = (alerts w ++ ["Error processing image"])%list
  /\ processedImage (state after) = processedImage (state w)
  /\ compressedSize (state after) = compressedSize (state w)
  /\ selectedFile (state after) = selectedFile (state w)
  /\ isProcessing (state after) = false.
Proof.
  intros Hsel Hcrop Hcomp. cbv zeta. open_world w. subst.
  unfold processImage. run_handler. rewrite Hcomp. repeat split.
Qed.


(* ================================================================== *)
(** ** [processImage]: what every run keeps, and how runs end *)
(* ================================================================== *)

(** X1. Whatever the libraries do, [processImage] changes neither the
    selected file, the original image and size, the settings nor the crop
    state, and it never calls the HEIC decoder. *)
Theorem processImage_keeps_inputs (env : Env) (w : World) :
  let after := snd (processImage env w) in
  selectedFile (state after) = selectedFile (state w)
  /\ originalImage (state after) = originalImage (state w)
  /\ originalSize (state after) = originalSize (state w)
  /\ quality (state after) = quality (state w)
  /\ maxWidth (state after) = maxWidth (state w)
  /\ maxHeight (state after) = maxHeight (state w)
  /\ outputFormat (state after) = outputFormat (state w)
  /\ showCrop (state after) = showCrop (state w)
  /\ crop (state after) = crop (state w)
  /\ completedCrop (state after) = completedCrop (state w)
  /\ imgRef after = imgRef w
  /\ heic2any_calls after = heic2any_calls w.
Proof.
  cbv zeta. open_world w. unfold processImage. handler_cases;
    repeat split.
Qed.

(** X2. A run of [processImage] raises at most one alert, and when it
    does the run has ended with the processed image, the compressed size
    and the pending reads as they were and the busy flag lowered: a
    failure never leaves part of a result behind. *)
Theorem processImage_failure_leaves_no_result (env : Env) (w : World) :
  let after := snd (processImage env w) in
  alerts after = alerts w
  \/ (alerts after = (alerts w ++ ["Error processing image"])%list
      /\ fst (processImage env w) = Resolved tt
      /\ processedImage (state after) = processedImage (state w)
      /\ compressedSize (state after) = compressedSize (state w)
      /\ reading after = reading w
      /\ isProcessing (state after) = false).
Proof.
  cbv zeta. open_world w. unfold processImage. handler_cases;
    first [ left; reflexivity | right; repeat split ].
Qed.


(** X3. [processImage] calls the compressor at most once: not at all
    without a selected file or when the crop cannot be cut out, and
    otherwise once, with the file to process and the options built from
    the settings. *)
Theorem processImage_compressor_call (env : Env) (w : World) :
  imageCompression_calls (snd (processImage env w))
  = (imageCompression_calls w
     ++ match selectedFile (state w) with
        | Some selected =>
            match fileToProcess env w selected with
            | Resolved sent => [(sent, compression_options (state w))]
            | Rejected _ | Unsettled => []
            end
        | None => []
        end)%list.
Proof.
  process_cases w; rewrite ?app_nil_r; reflexivity.
Qed.


Lemma app_one_neq {A : Type} (l : list A) (x : A) : (l ++ [x])%list <> l.
Proof.
  intros H. apply (f_equal (@length A)) in H.
  rewrite length_app in H. simpl in H. lia.
Qed.

(** [convertToPDF] has no way to reject. *)
Lemma convertToPDF_not_rejected (env : Env) (file : File.t) (e : string) :
  convertToPDF env file <> Rejected e.
Proof. unfold convertToPDF. destruct (File.content file); discriminate. Qed.

Ltac no_pdf_rejection :=
  match goal with
  | H : convertToPDF _ _ = Rejected _ |- _ =>
      exfalso; exact (convertToPDF_not_rejected _ _ _ H)
  end.

(** X4. With a file selected, [processImage] alerts "Error processing
    image" exactly when the crop cannot be cut out or the compressor
    rejects; in that case the handler still finishes. *)
Theorem processImage_alerts_on_failure (env : Env) (w : World)
    (selected : File.t) :
  selectedFile (state w) = Some selected ->
  let after := snd (processImage env w) in
  alerts after = (alerts w ++ ["Error processing image"])%list
  <-> ((exists e, fileToProcess env w selected = Rejected e)
       \/ (exists sent,
             fileToProcess env w selected = Resolved sent
             /\ imageCompression env sent (compression_options (state w))
                = None)).
Proof.
  intros Hsel. cbv zeta.
  process_cases w; try no_pdf_rejection;
    (split;
     [ intros Halert;
       first [ left; eexists; reflexivity
             | right; eexists; split; [reflexivity | eassumption]
             | symmetry in Halert; apply app_one_neq in Halert; contradiction ]
     | intros [[? ?] | [? [? ?]]];
       close_branch; reflexivity ]).
Qed.

Lemma processImage_alerts_on_failure_witness :
  alerts (snd (processImage sample_env flat_crop_world))
  = ["Error processing image"]
  /\ console (snd (processImage sample_env flat_crop_world))
     = ["Processing error: Canvas is empty"].
Proof.
  split; [|reflexivity].
  apply (processImage_alerts_on_failure sample_env flat_crop_world sample_png
           eq_refl).
  left. exists "Canvas is empty". reflexivity.
Defined.

(** X5. Without a mounted image element ([imgRef.current] is null) a
    completed crop is ignored: the compressor receives the selected file
    itself. *)
Theorem processImage_ignores_crop_without_element (env : Env) (w : World)
    (selected : File.t) :
  selectedFile (state w) = Some selected ->
  imgRef w = None ->
  imageCompression_calls (snd (processImage env w))
  = (imageCompression_calls w
     ++ [(selected, compression_options (state w))])%list.
Proof.
  intros Hsel Href. process_cases w; close_branch; reflexivity.
Qed.

Lemma processImage_ignores_crop_without_element_witness :
  completedCrop (state unmounted_world) = Some sample_crop
  /\ imageCompression_calls (snd (processImage sample_env unmounted_world))
     = [(sample_png, compression_options sample_state)].
Proof.
  split; [reflexivity|].
  exact (processImage_ignores_crop_without_element sample_env unmounted_world
           sample_png eq_refl eq_refl).
Defined.


(** X6. For an image output format, once the compressor resolves
    [processImage] stores the compressed file's size at once and only
    starts reading the file: the processed image is still the previous
    one when the handler finishes, and becomes the compressed file's data
    URL when the read completes. *)
Theorem processImage_raster_result (env : Env) (w : World)
    (selected sent compressed : File.t) :
  selectedFile (state w) = Some selected ->
  fileToProcess env w selected = Resolved sent ->
  imageCompression env sent (compression_options (state w)) = Some compressed ->
  outputFormat (state w) <> pdf ->
  reading w = [] ->
  let after := snd (processImage env w) in
  fst (processImage env w) = Resolved tt
  /\ alerts after = alerts w
  /\ compressedSize (state after) = File.size compressed
  /\ isProcessing (state after) = false
  /\ reading after = [ReadProcessed compressed]
  /\ processedImage (state after) = processedImage (state w)
  /\ processedImage (state (finish_reads env after))
     = Some (readAsDataURL env compressed)
  /\ compressedSize (state (finish_reads env after)) = File.size compressed.
Proof.
  intros Hsel Hsent Hcomp Hfmt Hidle. cbv zeta.
  process_cases w; close_branch; repeat split.
Qed.

Lemma processImage_raster_result_witness :
  let after := snd (processImage sample_env sample_world) in
  compressedSize (state after) = 5000
  /\ processedImage (state after) = Some "data:image/jpeg;base64,holiday.png"
  /\ processedImage (state (finish_reads sample_env after))
     = Some "data:image/png;base64,holiday.png".
Proof.
  destruct (processImage_raster_result sample_env sample_world sample_png
              (File.new (Blob.mk "image/jpeg" 5000 (ImageData "image/jpeg" 100 50))
                 "holiday.png" "image/png")
              (File.new (Blob.mk "image/jpeg" 5000 (ImageData "image/jpeg" 100 50))
                 "holiday.png" "image/png")
              eq_refl eq_refl eq_refl ltac:(discriminate) eq_refl)
    as (_ & _ & Hsize & _ & _ & Hstale & Hloaded & _).
  cbv zeta. split; [exact Hsize|]. split; [exact Hstale | exact Hloaded].
Defined.

(** X7. For output format "pdf", once the compressor resolves and
    [convertToPDF] delivers its blob, [processImage] stores the size of
    the PDF blob (not of the compressed image) and an object URL of it,
    starts no read, and the page shows the download button but no
    processed preview; the compressor has been asked for type
    "image/pdf". *)
Theorem processImage_pdf_result (env : Env) (w : World)
    (selected sent compressed : File.t) (pdfBlob : Blob.t) :
  selectedFile (state w) = Some selected ->
  fileToProcess env w selected = Resolved sent ->
  imageCompression env sent (compression_options (state w)) = Some compressed ->
  outputFormat (state w) = pdf ->
  convertToPDF env compressed = Resolved pdfBlob ->
  let after := snd (processImage env w) in
  fst (processImage env w) = Resolved tt
  /\ fileType (compression_options (state w)) = "image/pdf"
  /\ alerts after = alerts w
  /\ compressedSize (state after) = Blob.size pdfBlob
  /\ processedImage (state after) = Some (createObjectURL env pdfBlob)
  /\ reading after = reading w
  /\ isProcessing (state after) = false
  /\ processed_preview_shown (render (state after)) = false
  /\ download_button_shown (render (state after))
     = negb (String.eqb (createObjectURL env pdfBlob) "").
Proof.
  intros Hsel Hsent Hcomp Hfmt Hpdf. cbv zeta.
  process_cases w; close_branch; repeat split;
    unfold render, has_file, truthy, is_pdf;
    cbn [processed_preview_shown download_button_shown selectedFile
         processedImage outputFormat andb negb];
    try reflexivity;
    destruct (String.eqb _ _); reflexivity.
Qed.

Lemma processImage_pdf_result_witness :
  let after := snd (processImage sample_env pdf_world) in
  compressedSize (state after) = 4096
  /\ processedImage (state after) = Some "blob:processed"
  /\ processed_preview_shown (render (state after)) = false
  /\ download_button_shown (render (state after)) = true.
Proof.
  destruct (convertToPDF sample_env sample_png) as [pdfBlob| |] eqn:Hpdf;
    try discriminate.
  destruct (processImage_pdf_result sample_env pdf_world sample_png
              sample_png sample_png pdfBlob
              eq_refl eq_refl eq_refl eq_refl Hpdf)
    as (_ & _ & _ & Hsize & Hurl & _ & _ & Hpreview & Hbutton).
  injection Hpdf as <-.
  cbv zeta. split; [exact Hsize|]. split; [exact Hurl|].
  split; [exact Hpreview | exact Hbutton].
Defined.

(** X8. For output format "pdf", when the compressor's result does not
    decode as an image, [processImage] never finishes: no error is
    reported, nothing is stored, and the busy flag stays raised, which
    keeps the process button disabled. *)
Theorem processImage_pdf_never_finishes (env : Env) (w : World)
    (selected sent compressed : File.t) :
  selectedFile (state w) = Some selected ->
  fileToProcess env w selected = Resolved sent ->
  imageCompression env sent (compression_options (state w)) = Some compressed ->
  outputFormat (state w) = pdf ->
  encoding_of (File.content compressed) = None ->
  let after := snd (processImage env w) in
  fst (processImage env w) = Unsettled
  /\ alerts after = alerts w
  /\ console after = console w
  /\ processedImage (state after) = processedImage (state w)
  /\ compressedSize (state after) = compressedSize (state w)
  /\ isProcessing (state after) = true
  /\ process_button_disabled (render (state after)) = true.
Proof.
  intros Hsel Hsent Hcomp Hfmt Hopaque. cbv zeta.
  assert (Hpdf : convertToPDF env compressed = Unsettled).
  { unfold convertToPDF. destruct (File.content compressed);
      [discriminate | reflexivity | reflexivity]. }
  process_cases w; close_branch; repeat split.
Qed.

Lemma processImage_pdf_never_finishes_witness :
  fst (processImage opaque_output_env pdf_world) = Unsettled
  /\ isProcessing (state (snd (processImage opaque_output_env pdf_world)))
     = true.
Proof.
  destruct (processImage_pdf_never_finishes opaque_output_env pdf_world
              sample_png sample_png
              (File.mk "holiday.png" "image/png" 10 Undecodable)
              eq_refl eq_refl eq_refl eq_refl eq_refl)
    as (Hfst & _ & _ & _ & _ & Hbusy & _).
  split; [exact Hfst | exact Hbusy].
Defined.


(* ================================================================== *)
(** ** [handleFileSelect]: the three paths and what all of them keep *)
(* ================================================================== *)

Lemma toLowerCase_length (s : string) :
  String.length (JS.toLowerCase s) = String.length s.
Proof. induction s as [|c s IH]; simpl; [reflexivity | now rewrite IH]. Qed.

Lemma substring_prefix (p t : string) :
  substring 0 (String.length p) (p ++ t) = p.
Proof.
  induction p as [|c p IH]; simpl.
  - destruct t; reflexivity.
  - now rewrite IH.
Qed.

(** Two ways of splitting one string at the same distance from its end
    agree. *)
Lemma append_same_length_tail (a b u v : string) :
  a ++ u = b ++ v -> String.length u = String.length v -> u = v.
Proof.
  revert b. induction a as [|c a IH]; intros b H Hlen.
  - destruct b as [|d b]; [exact H|].
    simpl in H. apply (f_equal String.length) in H.
    simpl in H. rewrite length_append in H. lia.
  - destruct b as [|d b].
    + simpl in H. apply (f_equal String.length) in H.
      simpl in H. rewrite length_append in H. lia.
    + simpl in H. injection H as _ H. exact (IH b H Hlen).
Qed.

(** X9. Renaming for the decoded file: a name that ends in ".heic", in
    any mix of cases, gets that ending replaced by ".jpg"; any other name
    is kept; and the result never ends in ".heic" again. *)
Theorem replace_heic_suffix_spec (name : string) :
  (forall stem ext,
     name = stem ++ ext -> JS.toLowerCase ext = ".heic" ->
     replace_heic_suffix name = stem ++ ".jpg")
  /\ (JS.endsWith (JS.toLowerCase name) ".heic" = false ->
      replace_heic_suffix name = name)
  /\ JS.endsWith (JS.toLowerCase (replace_heic_suffix name)) ".heic" = false.
Proof.
  assert (Hrename : forall stem ext,
             name = stem ++ ext -> JS.toLowerCase ext = ".heic" ->
             replace_heic_suffix name = stem ++ ".jpg").
  { intros stem ext -> Hext. unfold replace_heic_suffix.
    assert (Hends : JS.endsWith (JS.toLowerCase (stem ++ ext)) ".heic" = true).
    { apply endsWith_spec. exists (JS.toLowerCase stem).
      now rewrite toLowerCase_append, Hext. }
    rewrite Hends.
    assert (Hlen : String.length ext = 5%nat)
      by (rewrite <- toLowerCase_length, Hext; reflexivity).
    rewrite length_append, Hlen.
    replace (String.length stem + 5 - 5)%nat with (String.length stem) by lia.
    now rewrite substring_prefix. }
  split; [exact Hrename|]. split.
  - intros Hno. unfold replace_heic_suffix. now rewrite Hno.
  - destruct (JS.endsWith (JS.toLowerCase name) ".heic") eqn:Hends.
    + apply endsWith_spec in Hends. destruct Hends as [p Hp].
      destruct (toLowerCase_split p ".heic" name Hp)
        as (stem & ext & Hname & _ & Hext).
      rewrite (Hrename stem ext Hname Hext).
      destruct (JS.endsWith (JS.toLowerCase (stem ++ ".jpg")) ".heic") eqn:Hagain;
        [|reflexivity].
      apply endsWith_spec in Hagain. destruct Hagain as [q Hq].
      rewrite toLowerCase_append in Hq.
      change (JS.toLowerCase ".jpg") with ".jpg" in Hq.
      assert (Hassoc : q ++ ".heic" = (q ++ ".") ++ "heic").
      { clear. induction q as [|c q IH]; simpl;
          [reflexivity | now rewrite IH]. }
      rewrite Hassoc in Hq.
      assert (Htail : ".jpg" = "heic")
        by (apply (append_same_length_tail _ _ _ _ Hq); reflexivity).
      discriminate.
    + unfold replace_heic_suffix. now rewrite Hends.
Qed.

Lemma replace_heic_suffix_spec_witness :
  replace_heic_suffix "IMG_0001.HEIC" = "IMG_0001.jpg"
  /\ replace_heic_suffix "holiday.png" = "holiday.png".
Proof.
  destruct (replace_heic_suffix_spec "IMG_0001.HEIC") as (Hrename & _ & _).
  destruct (replace_heic_suffix_spec "holiday.png") as (_ & Hkeep & _).
  split.
  - exact (Hrename "IMG_0001" ".HEIC" eq_refl eq_refl).
  - exact (Hkeep eq_refl).
Defined.


(** X10. When the decoder succeeds, the selected file becomes a file of
    type "image/jpeg" that carries the decoder's bytes under the renamed
    name, while the original size stays that of the HEIC upload; no
    alert is raised, and the original image turns into the data URL of
    the converted file once its read completes. *)
Theorem handleFileSelect_decoded_file (env : Env) (file : File.t)
    (rest : list File.t) (w : World) (blob : Blob.t) :
  is_heic file = true ->
  heic2any env file = Some blob ->
  reading w = [] ->
  let after := snd (handleFileSelect env (file :: rest) w) in
  exists converted,
    selectedFile (state after) = Some converted
    /\ File.type converted = "image/jpeg"
    /\ File.name converted = replace_heic_suffix (File.name file)
    /\ File.content converted = Blob.content blob
    /\ File.size converted = Blob.size blob
    /\ originalSize (state after) = File.size file
    /\ alerts after = alerts w
    /\ originalImage (state after) = originalImage (state w)
    /\ originalImage (state (finish_reads env after))
       = Some (readAsDataURL env converted)
    /\ selectedFile (state (finish_reads env after)) = Some converted.
Proof.
  intros Hheic Hblob Hidle. cbv zeta.
  rewrite (handleFileSelect_decoded env file rest w blob Hheic Hblob).
  eexists. cbn [snd state selected_state selectedFile originalSize alerts
                originalImage].
  split; [reflexivity|].
  unfold finish_reads. cbn [reading]. rewrite Hidle.
  repeat split.
Qed.

Lemma handleFileSelect_decoded_file_witness :
  let after := snd (handleFileSelect decoding_env [sample_heic] sample_world) in
  selectedFile (state after)
  = Some (File.mk "IMG_0001.jpg" "image/jpeg" 1200000
            (ImageData "image/jpeg" 4032 3024))
  /\ originalSize (state after) = 900000.
Proof.
  destruct (handleFileSelect_decoded_file decoding_env sample_heic []
              sample_world
              (Blob.mk "image/jpeg" 1200000 (ImageData "image/jpeg" 4032 3024))
              eq_refl eq_refl eq_refl)
    as (converted & Hsel & _ & _ & _ & _ & Hsize & _).
  cbv zeta. split; [|exact Hsize].
  rewrite Hsel. vm_compute in Hsel. injection Hsel as <-. reflexivity.
Defined.

(** X11. A file that needs no decoding is selected as it is, without a
    call to the decoder and without an alert; the previous original
    image stays until the file has been read and is then replaced by the
    file's data URL. *)
Theorem handleFileSelect_plain_file (env : Env) (file : File.t)
    (rest : list File.t) (w : World) :
  is_heic file = false ->
  reading w = [] ->
  let after := snd (handleFileSelect env (file :: rest) w) in
  selectedFile (state after) = Some file
  /\ originalSize (state after) = File.size file
  /\ heic2any_calls after = heic2any_calls w
  /\ alerts after = alerts w
  /\ originalImage (state after) = originalImage (state w)
  /\ originalImage (state (finish_reads env after))
     = Some (readAsDataURL env file)
  /\ reading (finish_reads env after) = [].
Proof.
  intros Hplain Hidle. cbv zeta.
  rewrite (handleFileSelect_plain env file rest w Hplain).
  unfold finish_reads. cbn [snd reading]. rewrite Hidle.
  repeat split.
Qed.

Lemma handleFileSelect_plain_file_witness :
  let after :=
    snd (handleFileSelect sample_env [sample_png]
           (mkWorld initialState None [] [] [] [] [])) in
  originalImage (state after) = None
  /\ originalImage (state (finish_reads sample_env after))
     = Some "data:image/png;base64,holiday.png".
Proof.
  destruct (handleFileSelect_plain_file sample_env sample_png []
              (mkWorld initialState None [] [] [] [] []) eq_refl eq_refl)
    as (_ & _ & _ & _ & Hbefore & Hloaded & _).
  cbv zeta. split; [exact Hbefore | exact Hloaded].
Defined.

(** X12. Selecting a file never touches the settings, the busy flag, the
    rectangle being dragged, the compressed size or the image element,
    and never calls the compressor; the original size always becomes the
    size of the file that was picked. *)
Theorem handleFileSelect_keeps_settings (env : Env) (file : File.t)
    (rest : list File.t) (w : World) :
  let after := snd (handleFileSelect env (file :: rest) w) in
  quality (state after) = quality (state w)
  /\ maxWidth (state after) = maxWidth (state w)
  /\ maxHeight (state after) = maxHeight (state w)
  /\ outputFormat (state after) = outputFormat (state w)
  /\ isProcessing (state after) = isProcessing (state w)
  /\ crop (state after) = crop (state w)
  /\ compressedSize (state after) = compressedSize (state w)
  /\ originalSize (state after) = File.size file
  /\ imgRef after = imgRef w
  /\ imageCompression_calls after = imageCompression_calls w.
Proof.
  cbv zeta.
  destruct (is_heic file) eqn:Hheic.
  - destruct (heic2any env file) as [blob|] eqn:Hdec.
    + rewrite (handleFileSelect_decoded env file rest w blob Hheic Hdec).
      repeat split.
    + rewrite (handleFileSelect_undecoded env file rest w Hheic Hdec).
      repeat split.
  - rewrite (handleFileSelect_plain env file rest w Hheic). repeat split.
Qed.

(** X13. [handleFileSelect] alerts exactly when the file is sent to the
    decoder and the decoder fails; on every other selection the alerts
    are as before. *)
Theorem handleFileSelect_alerts_on_decode_failure (env : Env) (file : File.t)
    (rest : list File.t) (w : World) :
  let after := snd (handleFileSelect env (file :: rest) w) in
  (alerts after = (alerts w ++ ["Error converting HEIC file"])%list
   <-> heic_by_type_or_name file /\ heic2any env file = None)
  /\ (alerts after = alerts w
      <-> ~ (heic_by_type_or_name file /\ heic2any env file = None)).
Proof.
  cbv zeta. rewrite <- is_heic_spec.
  pose proof (app_one_neq (alerts w) "Error converting HEIC file") as Hneq.
  destruct (is_heic file) eqn:Hheic;
    [ destruct (heic2any env file) as [blob|] eqn:Hdec;
      [ rewrite (handleFileSelect_decoded env file rest w blob Hheic Hdec)
      | rewrite (handleFileSelect_undecoded env file rest w Hheic Hdec) ]
    | rewrite (handleFileSelect_plain env file rest w Hheic) ];
    cbn [snd alerts];
    (split; split; intro H;
     first [ reflexivity
           | split; reflexivity
           | exfalso; apply Hneq; congruence
           | destruct H; discriminate
           | intros [? ?]; discriminate
           | exfalso; apply H; split; reflexivity ]).
Qed.

(** X14. What the page shows right after a selection: the settings, no
    download button, no processed preview and no crop widget.  The
    statistics panel stays on the page whenever an earlier run has left a
    compressed size, and then sets the new file's size against that
    earlier size. *)
Theorem handleFileSelect_view (env : Env) (file : File.t)
    (rest : list File.t) (w : World) :
  let after := snd (handleFileSelect env (file :: rest) w) in
  let view := render (state after) in
  settings_shown view = true
  /\ download_button_shown view = false
  /\ processed_preview_shown view = false
  /\ crop_widget_shown view = false
  /\ stats_shown view = (compressedSize (state w) >? 0)
  /\ original_size_text view = formatBytes (File.size file)
  /\ compressed_size_text view = formatBytes (compressedSize (state w)).
Proof.
  cbv zeta.
  destruct (handleFileSelect_state env file rest w) as [_ [chosen Hst]].
  rewrite Hst. unfold render, has_file, selected_state, truthy.
  cbn [settings_shown download_button_shown processed_preview_shown
       crop_widget_shown stats_shown original_size_text compressed_size_text
       selectedFile processedImage showCrop compressedSize originalSize
       andb].
  rewrite !andb_false_r. repeat split.
Qed.


(* ================================================================== *)
(** ** The crop extractor and the PDF wrapper: failures and edge cases *)
(* ================================================================== *)




Lemma scale_inf_of_Z (v : Z) :
  JS.scale_inf (Q2Qc (inject_Z v))
  = match v ?= 0 with
    | Eq => JS.NaN
    | Gt => JS.Infinity
    | Lt => JS.NegInfinity
    end.
Proof. unfold JS.scale_inf. now rewrite Qc_sign_of_Z. Qed.

(** A whole number over zero: the sign of the dividend decides. *)
Lemma div_of_Z_zero (a : Z) :
  JS.div (JS.of_Z a) (JS.of_Z 0)
  = match a ?= 0 with
    | Eq => JS.NaN
    | Gt => JS.Infinity
    | Lt => JS.NegInfinity
    end.
Proof.
  unfold JS.div, JS.of_Z. rewrite (Qc_sign_of_Z 0).
  change (0 ?= 0) with Eq. cbv iota. apply scale_inf_of_Z.
Qed.

(** X16. Nothing guards the scale against a display size of zero.  For
    an image displayed zero pixels wide with positive native width, the
    source rectangle of the draw has an infinite width for every crop of
    positive width, and its left edge is infinite for a positive [x] and
    [NaN] for [x = 0]; the function then goes on to encode the canvas as
    usual. *)
Theorem getCroppedImage_zero_display_width (env : Env)
    (image : HTMLImageElement.t) (crop : PixelCrop.t) :
  HTMLImageElement.width image = 0 ->
  0 < HTMLImageElement.naturalWidth image ->
  (JS.whole 0 <= PixelCrop.x crop)%Qc ->
  (JS.whole 0 < PixelCrop.width crop)%Qc ->
  getContext_2d env (sized_canvas crop) = true ->
  exists canvas d,
    getCroppedImage_canvas env image crop = Resolved canvas
    /\ Canvas.drawn canvas = [d]
    /\ Canvas.sWidth d = JS.Infinity
    /\ Canvas.sx d
       = (if Qc_eq_dec (PixelCrop.x crop) (JS.whole 0) then JS.NaN
          else JS.Infinity)
    /\ getCroppedImage env image crop
       = match toBlob env canvas "image/jpeg" with
         | Some blob => Resolved blob
         | None => Rejected "Canvas is empty"
         end.
Proof.
  intros Hw Hnw Hx Hcw Hctx.
  pose proof (getCroppedImage_canvas_eq env image crop Hctx) as Hrun.
  cbv zeta in Hrun.
  eexists. eexists. split; [exact Hrun|].
  split; [reflexivity|].
  cbn [Canvas.sWidth Canvas.sx].
  assert (Hscale : JS.div (JS.of_Z (HTMLImageElement.naturalWidth image))
                     (JS.of_Z (HTMLImageElement.width image)) = JS.Infinity).
  { rewrite Hw, div_of_Z_zero.
    destruct (Z.compare_spec (HTMLImageElement.naturalWidth image) 0);
      [lia | lia | reflexivity]. }
  assert (Hpositive : forall v : Qc,
             (JS.whole 0 < v)%Qc -> JS.mul (JS.Finite v) JS.Infinity = JS.Infinity).
  { intros v Hv. unfold JS.mul, JS.scale_inf, JS.Qc_sign.
    change (Q2Qc 0) with (JS.whole 0).
    apply Qcgt_alt in Hv. now rewrite Hv. }
  split; [|split].
  - rewrite Hscale. apply Hpositive. exact Hcw.
  - rewrite Hscale.
    destruct (Qc_eq_dec (PixelCrop.x crop) (JS.whole 0)) as [Hzero | Hnonzero].
    + rewrite Hzero. reflexivity.
    + apply Hpositive. apply Qcle_lt_or_eq in Hx.
      destruct Hx as [Hlt | Heq]; [exact Hlt | congruence].
  - unfold getCroppedImage. rewrite Hrun.
    destruct (toBlob env _ _); reflexivity.
Qed.

Lemma getCroppedImage_zero_display_width_witness :
  exists canvas d,
    getCroppedImage_canvas sample_env (HTMLImageElement.mk 2000 1000 0 0)
      (PixelCrop.whole 0 20 100 50) = Resolved canvas
    /\ Canvas.drawn canvas = [d]
    /\ Canvas.sWidth d = JS.Infinity
    /\ Canvas.sx d = JS.NaN.
Proof.
  destruct (getCroppedImage_zero_display_width sample_env
              (HTMLImageElement.mk 2000 1000 0 0) (PixelCrop.whole 0 20 100 50)
              eq_refl eq_refl ltac:(vm_compute; discriminate) eq_refl eq_refl)
    as (canvas & d & Hrun & Hdrawn & Hsw & Hsx & _).
  exists canvas, d. repeat split; assumption.
Defined.

(** X17. [convertToPDF] either resolves or never settles, and it never
    settles exactly for a file whose bytes are not an image; a blob it
    resolves with is typed "application/pdf", its document is measured in
    "px" and holds one image, labelled "JPEG" whatever the encoding of
    the file. *)
Theorem convertToPDF_outcomes (env : Env) (file : File.t) :
  (forall e, convertToPDF env file <> Rejected e)
  /\ (convertToPDF env file = Unsettled
      <-> encoding_of (File.content file) = None)
  /\ (forall blob,
        convertToPDF env file = Resolved blob ->
        Blob.type blob = "application/pdf"
        /\ Blob.size blob
           = match Blob.content blob with
             | Document doc => pdf_size env doc
             | _ => 0
             end
        /\ exists doc page image,
             Blob.content blob = Document doc
             /\ jsPDF.unit doc = "px"
             /\ jsPDF.pages doc = [page]
             /\ jsPDF.images page = [image]
             /\ jsPDF.format image = "JPEG").
Proof.
  unfold convertToPDF.
  destruct (File.content file) as [encoding pw ph | doc |]; cbv zeta;
    cbn [encoding_of].
  - split; [discriminate|]. split; [split; discriminate|].
    intros blob H. injection H as <-.
    cbn [Blob.type Blob.size Blob.content].
    split; [reflexivity|]. split; [reflexivity|].
    unfold jsPDF.new. rewrite page_size_matching_orientation.
    unfold jsPDF.addImage.
    cbn [jsPDF.pages jsPDF.on_last_page jsPDF.unit jsPDF.orientation
         jsPDF.width jsPDF.height jsPDF.images app].
    eexists. eexists. eexists.
    split; [reflexivity|].
    cbn [jsPDF.pages jsPDF.unit jsPDF.images jsPDF.format].
    repeat split.
  - split; [discriminate|]. split; [split; reflexivity|]. discriminate.
  - split; [discriminate|]. split; [split; reflexivity|]. discriminate.
Qed.



(* ================================================================== *)
(** ** The read-outs: [formatBytes] and [compressionRatio] in general *)
(* ================================================================== *)

Lemma append_empty_r (s : string) : s ++ "" = s.
Proof. induction s as [|c s IH]; simpl; [reflexivity | now rewrite IH]. Qed.

(** A whole, non-negative number prints as its decimal digits. *)
Lemma toString_of_Z (z : Z) :
  0 <= z -> JS.toString (JS.of_Z z) = JS.Z_toString z.
Proof.
  intros Hz. unfold JS.toString, JS.of_Z, Q2Qc. cbn [this].
  rewrite Qred_inject_Z. unfold inject_Z. cbn [Qnum Qden].
  rewrite Z.abs_eq by assumption.
  rewrite Z.div_1_r, Z.mod_1_r.
  destruct (Z.ltb_spec z 0); [lia|].
  cbn [Z.eqb]. cbn [append]. apply append_empty_r.
Qed.

(** The number [formatBytes] rounds, in whole-number arithmetic: the
    hundredths of [bytes / k^i], rounded half up. *)
Lemma Math_round_hundredths (bytes p : Z) :
  0 < p ->
  JS.Math_round
    (JS.mul (JS.div (JS.of_Z bytes) (JS.of_Z p)) (JS.of_Z 100))
  = JS.of_Z ((200 * bytes + p) / (2 * p)).
Proof.
  intros Hp. rewrite div_of_Z_pos by assumption.
  cbn [JS.mul JS.of_Z].
  rewrite (Math_round_Finite _
             ((inject_Z bytes / inject_Z p) * inject_Z 100)%Q).
  - f_equal. unfold round_half_up.
    destruct p as [|q|]; try lia.
    transitivity (Qfloor ((200 * bytes + Zpos q) # (2 * q))); [|reflexivity].
    apply Qfloor_comp.
    rewrite (Qmake_Qdiv (200 * bytes + Zpos q) (2 * q)).
    change (Zpos (2 * q)) with (2 * Zpos q).
    rewrite inject_Z_plus, !inject_Z_mult.
    field. intros H. unfold Qeq, inject_Z in H. cbn in H. lia.
  - unfold Qcmult, Qcdiv, Qcmult, Qcinv, Q2Qc. cbn [this].
    rewrite !Qred_correct. reflexivity.
Qed.

(** X18. For every size from one byte to just under 1024^4 bytes, where
    a unit name exists and the logarithm in double precision has the
    same whole part as the exact one, [formatBytes] prints the size
    divided by 1024 to the power of its unit index, rounded half up to
    hundredths, then a space and the unit name; the number of hundredths
    lies between 100 and 102400, so the figure can reach 1024 but never
    drops below 1. *)
Theorem formatBytes_value (bytes : Z) :
  1 <= bytes < 1024 ^ 4 ->
  let i := unit_index bytes in
  let hundredths := (200 * bytes + 1024 ^ i) / (2 * 1024 ^ i) in
  formatBytes bytes
  = JS.toString (JS.div (JS.of_Z hundredths) (JS.of_Z 100))
    ++ " " ++ JS.concat_operand (JS.index sizes i)
  /\ 100 <= hundredths <= 102400.
Proof.
  intros [Hpos _]. cbv zeta.
  destruct (unit_index_spec bytes Hpos) as (Hi & Hlo & Hhi).
  assert (Hp : 0 < 1024 ^ unit_index bytes) by (apply Z.pow_pos_nonneg; lia).
  split.
  - unfold formatBytes.
    destruct (Z.eqb_spec bytes 0); [lia|].
    destruct (Z.ltb_spec bytes 0); [lia|].
    cbv zeta. unfold JS.Math_pow.
    rewrite Math_round_hundredths by assumption. reflexivity.
  - rewrite Z.pow_add_r, Z.pow_1_r in Hhi by lia.
    set (p := 1024 ^ unit_index bytes) in *.
    split.
    + apply Z.div_le_lower_bound; lia.
    + enough ((200 * bytes + p) / (2 * p) < 102401) by lia.
      apply Z.div_lt_upper_bound; lia.
Qed.

Lemma formatBytes_value_witness :
  formatBytes 1048575 = "1024 KB"
  /\ 100 <= (200 * 1048575 + 1024 ^ 1) / (2 * 1024 ^ 1) <= 102400.
Proof.
  destruct (formatBytes_value 1048575 ltac:(lia)) as [Htext Hrange].
  split; [|exact Hrange].
  rewrite Htext. vm_compute. reflexivity.
Defined.

Lemma formatBytes_value_aux (bytes : Z) :
  1 <= bytes ->
  exists digits,
    formatBytes bytes
    = digits ++ " " ++ JS.concat_operand (JS.index sizes (unit_index bytes)).
Proof.
  intros Hpos. unfold formatBytes.
  destruct (Z.eqb_spec bytes 0); [lia|].
  destruct (Z.ltb_spec bytes 0); [lia|].
  cbv zeta. eexists. reflexivity.
Qed.

(** X19. Which unit [formatBytes] names: below 1024 bytes the size is
    printed as it is with "Bytes"; from 1024 up to 1024^2 the text ends
    in " KB", up to 1024^3 in " MB" and up to 1024^4 in " GB". *)
Theorem formatBytes_unit_names (bytes : Z) :
  1 <= bytes ->
  (bytes < 1024 -> formatBytes bytes = JS.Z_toString bytes ++ " Bytes")
  /\ (1024 <= bytes < 1024 ^ 2 ->
      exists digits, formatBytes bytes = digits ++ " KB")
  /\ (1024 ^ 2 <= bytes < 1024 ^ 3 ->
      exists digits, formatBytes bytes = digits ++ " MB")
  /\ (1024 ^ 3 <= bytes < 1024 ^ 4 ->
      exists digits, formatBytes bytes = digits ++ " GB").
Proof.
  intros Hpos.
  assert (Hunit : forall i, 0 <= i -> 1024 ^ i <= bytes < 1024 ^ (i + 1) ->
                  unit_index bytes = i).
  { intros i Hi Hrange. apply log_floor_unique; [lia | assumption | assumption]. }
  assert (Htext : forall i name, unit_index bytes = i ->
                  JS.index sizes i = Some name ->
                  exists digits, formatBytes bytes = digits ++ " " ++ name).
  { intros i name Hi Hname.
    destruct (formatBytes_value_aux bytes Hpos) as [digits Hd].
    exists digits. rewrite Hd, Hi, Hname. reflexivity. }
  split; [|split; [|split]].
  - intros Hsmall.
    assert (Hi : unit_index bytes = 0) by (apply Hunit; lia).
    unfold formatBytes.
    destruct (Z.eqb_spec bytes 0); [lia|].
    destruct (Z.ltb_spec bytes 0); [lia|].
    cbv zeta. rewrite Hi. unfold JS.Math_pow.
    rewrite Math_round_hundredths by reflexivity.
    change (1024 ^ 0) with 1.
    replace ((200 * bytes + 1) / (2 * 1)) with (100 * bytes).
    2:{ apply Z.div_unique with (r := 1); lia. }
    assert (Hback : JS.div (JS.of_Z (100 * bytes)) (JS.of_Z 100)
                    = JS.of_Z bytes).
    { rewrite div_of_Z_pos by lia. unfold JS.of_Z. f_equal.
      apply Qc_is_canon.
      unfold Qcdiv, Qcmult, Qcinv, Q2Qc. cbn [this].
      rewrite !Qred_correct, inject_Z_mult. field. }
    rewrite Hback, toString_of_Z by lia. reflexivity.
  - intros Hrange. apply (Htext 1); [apply Hunit; lia | reflexivity].
  - intros Hrange. apply (Htext 2); [apply Hunit; lia | reflexivity].
  - intros Hrange. apply (Htext 3); [apply Hunit; lia | reflexivity].
Qed.

Lemma formatBytes_unit_names_witness :
  formatBytes 1023 = "1023 Bytes"
  /\ exists digits, formatBytes 1048575 = digits ++ " KB".
Proof.
  destruct (formatBytes_unit_names 1023 ltac:(lia)) as (Hbytes & _).
  destruct (formatBytes_unit_names 1048575 ltac:(lia)) as (_ & Hkb & _).
  split.
  - rewrite Hbytes by lia. reflexivity.
  - apply Hkb. lia.
Defined.




(* ================================================================== *)
(** ** Settings, crop mode and download *)
(* ================================================================== *)

(** X21. The options handed to the compressor: for a quality between 1
    and 100 the quality fraction is a finite number above 0 and at most
    1; the size limit is the larger of the two maxima; and the requested
    type is "image/" followed by the format name, for "pdf" too. *)
Theorem compression_options_spec (s : State) :
  1 <= quality s <= 100 ->
  (exists q,
     opt_quality (compression_options s) = JS.Finite q
     /\ (Q2Qc 0 < q)%Qc /\ (q <= Q2Qc 1)%Qc)
  /\ maxWidth s <= maxWidthOrHeight (compression_options s)
  /\ maxHeight s <= maxWidthOrHeight (compression_options s)
  /\ (maxWidthOrHeight (compression_options s) = maxWidth s
      \/ maxWidthOrHeight (compression_options s) = maxHeight s)
  /\ fileType (compression_options s) = "image/" ++ format_name (outputFormat s)
  /\ maxSizeMB (compression_options s) = 10.
Proof.
  intros Hq. unfold compression_options.
  cbn [opt_quality maxWidthOrHeight fileType maxSizeMB].
  split; [|split; [lia | split; [lia | split; [lia | split]]]].
  - rewrite div_of_Z_pos by lia. eexists. split; [reflexivity|].
    split.
    + unfold Qclt, Qcdiv, Qcmult, Qcinv, Q2Qc. cbn [this].
      rewrite !Qred_correct.
      unfold Qlt, Qmult, Qinv, inject_Z. cbn. lia.
    + unfold Qcle, Qcdiv, Qcmult, Qcinv, Q2Qc. cbn [this].
      rewrite !Qred_correct.
      unfold Qle, Qmult, Qinv, inject_Z. cbn. lia.
  - destruct (outputFormat s); reflexivity.
  - reflexivity.
Qed.

Lemma compression_options_spec_witness :
  (exists q,
     opt_quality (compression_options sample_state) = JS.Finite q
     /\ (Q2Qc 0 < q)%Qc /\ (q <= Q2Qc 1)%Qc)
  /\ 1920 <= maxWidthOrHeight (compression_options sample_state)
  /\ fileType (compression_options sample_state) = "image/jpeg".
Proof.
  destruct (compression_options_spec sample_state)
    as ((q & Hq & Hlo & Hhi) & Hw & _ & _ & Htype & _);
    [simpl; lia|].
  split; [exists q; split; [exact Hq | split; [exact Hlo | exact Hhi]]|].
  split; [exact Hw | exact Htype].
Defined.


(** X22. Leaving crop mode keeps the completed crop and the dragged
    rectangle in the state, but the next render takes the image element
    off the page; a run of [processImage] after that sends the selected
    file to the compressor uncropped. *)
Theorem leaving_crop_mode_drops_the_crop (env : Env)
    (element : HTMLImageElement.t) (w : World) (selected : File.t) :
  selectedFile (state w) = Some selected ->
  showCrop (state w) = true ->
  let later := commit_ref element (snd (toggleCrop w)) in
  showCrop (state later) = false
  /\ completedCrop (state later) = completedCrop (state w)
  /\ crop (state later) = crop (state w)
  /\ imgRef later = None
  /\ imageCompression_calls (snd (processImage env later))
     = (imageCompression_calls w
        ++ [(selected, compression_options (state later))])%list.
Proof.
  intros Hsel Hcrop. cbv zeta.
  assert (Hleft : commit_ref element (snd (toggleCrop w))
                  = mkWorld
                      (mkState (selectedFile (state w)) (originalImage (state w))
                         (processedImage (state w)) (isProcessing (state w))
                         (quality (state w)) (maxWidth (state w))
                         (maxHeight (state w)) (outputFormat (state w)) false
                         (crop (state w)) (completedCrop (state w))
                         (originalSize (state w)) (compressedSize (state w)))
                      None (alerts w) (console w) (reading w)
                      (heic2any_calls w) (imageCompression_calls w)).
  { open_world w. subst. unfold commit_ref, toggleCrop, render.
    run_handler. cbn [crop_widget_shown negb]. rewrite andb_false_r.
    reflexivity. }
  rewrite Hleft. clear Hleft.
  cbn [state showCrop completedCrop crop imgRef].
  repeat (split; [reflexivity|]).
  open_world w. subst. unfold processImage. handler_cases; reflexivity.
Qed.

Lemma leaving_crop_mode_drops_the_crop_witness :
  let later := commit_ref sample_image (snd (toggleCrop sample_world)) in
  completedCrop (state later) = Some sample_crop
  /\ imgRef later = None
  /\ imageCompression_calls (snd (processImage sample_env later))
     = [(sample_png, compression_options (state later))].
Proof.
  destruct (leaving_crop_mode_drops_the_crop sample_env sample_image
              sample_world sample_png eq_refl eq_refl)
    as (_ & Hkept & _ & Href & Hcall).
  cbv zeta. split; [exact Hkept|]. split; [exact Href | exact Hcall].
Defined.

(** X23. [downloadImage] does nothing without a processed image;
    otherwise it clicks a link to the processed image named
    "compressed-", the time stamp, a dot and the output format that is
    selected at that moment.  So after the format selector has been
    changed, the previously processed image is offered unchanged under a
    name that ends in the newly selected format. *)
Theorem downloadImage_name_follows_selector (now : Z) (w : World)
    (fmt : OutputFormat) :
  let changed := state (snd (setOutputFormat fmt w)) in
  processedImage changed = processedImage (state w)
  /\ (truthy (processedImage (state w)) = false ->
      downloadImage now (state w) = None /\ downloadImage now changed = None)
  /\ (forall url,
        processedImage (state w) = Some url -> url <> "" ->
        downloadImage now (state w)
        = Some (Anchor.mk url
                  ("compressed-" ++ JS.Z_toString now ++ "."
                   ++ format_name (outputFormat (state w))))
        /\ downloadImage now changed
           = Some (Anchor.mk url
                     ("compressed-" ++ JS.Z_toString now ++ "."
                      ++ format_name fmt))).
Proof.
  cbv zeta. open_world w. unfold setOutputFormat, downloadImage. run_handler.
  split; [reflexivity|]. split.
  - intros Hfalsy. destruct processedImage0 as [url|]; [|split; reflexivity].
    rewrite Hfalsy. split; reflexivity.
  - intros url -> Hurl. unfold truthy.
    destruct (String.eqb_spec url ""); [contradiction|].
    split; reflexivity.
Qed.

Lemma downloadImage_name_follows_selector_witness :
  downloadImage 1700000000000
    (state (snd (setOutputFormat png sample_world)))
  = Some (Anchor.mk "data:image/jpeg;base64,holiday.png"
            "compressed-1700000000000.png").
Proof.
  destruct (downloadImage_name_follows_selector 1700000000000 sample_world png)
    as (_ & _ & Hname).
  destruct (Hname "data:image/jpeg;base64,holiday.png" eq_refl
              ltac:(discriminate)) as [_ Hchanged].
  rewrite Hchanged. reflexivity.
Defined.


(* ================================================================== *)
(** ** Handlers one after the other *)
(* ================================================================== *)

(** [getCroppedImage] always settles. *)
Lemma getCroppedImage_settles (env : Env) (image : HTMLImageElement.t)
    (crop : PixelCrop.t) :
  getCroppedImage env image crop <> Unsettled.
Proof.
  unfold getCroppedImage, getCroppedImage_canvas. cbv zeta.
  destruct (negb _); [discriminate|].
  destruct (toBlob env _ _); discriminate.
Qed.

Ltac crop_settles :=
  match goal with
  | H : getCroppedImage _ _ _ = Unsettled |- _ =>
      exfalso; exact (getCroppedImage_settles _ _ _ H)
  end.

(** X24. Errors never escape [processImage]: with a file selected it
    either finishes with the busy flag lowered, or, for output format
    "pdf" only, never finishes and leaves the flag raised; it never
    rejects. *)
Theorem processImage_ends (env : Env) (w : World) (selected : File.t) :
  selectedFile (state w) = Some selected ->
  let after := snd (processImage env w) in
  (fst (processImage env w) = Resolved tt
   /\ isProcessing (state after) = false)
  \/ (fst (processImage env w) = Unsettled
      /\ isProcessing (state after) = true
      /\ outputFormat (state w) = pdf).
Proof.
  intros Hsel. cbv zeta.
  process_cases w; try no_pdf_rejection; try crop_settles;
    first [ left; split; reflexivity | right; repeat split ].
Qed.

Lemma processImage_ends_witness :
  fst (processImage sample_env sample_world) = Resolved tt
  /\ isProcessing (state (snd (processImage sample_env sample_world))) = false.
Proof.
  destruct (processImage_ends sample_env sample_world sample_png eq_refl)
    as [Hdone | (Hstuck & _)]; [exact Hdone | discriminate Hstuck].
Defined.

(** X25. A run of [processImage] that follows a selection never crops:
    whatever crop and image element were there before, the compressor
    receives exactly the file the selection left as selected file. *)
Theorem processImage_after_selection_is_uncropped (env : Env)
    (file : File.t) (rest : list File.t) (w : World) :
  let selection := snd (handleFileSelect env (file :: rest) w) in
  exists chosen,
    selectedFile (state selection) = Some chosen
    /\ imageCompression_calls (snd (processImage env selection))
       = (imageCompression_calls w
          ++ [(chosen, compression_options (state selection))])%list.
Proof.
  cbv zeta.
  assert (Hrun : forall chosen ref al co rd hc,
             imageCompression_calls
               (snd (processImage env
                       (mkWorld (selected_state (state w) chosen (File.size file))
                          ref al co rd hc (imageCompression_calls w))))
             = (imageCompression_calls w
                ++ [(chosen,
                     compression_options
                       (selected_state (state w) chosen (File.size file)))])%list).
  { intros. open_world w. unfold processImage, selected_state.
    handler_cases; reflexivity. }
  destruct (is_heic file) eqn:Hheic.
  - destruct (heic2any env file) as [blob|] eqn:Hdec.
    + rewrite (handleFileSelect_decoded env file rest w blob Hheic Hdec).
      eexists. split; [reflexivity|]. apply Hrun.
    + rewrite (handleFileSelect_undecoded env file rest w Hheic Hdec).
      eexists. split; [reflexivity|]. apply Hrun.
  - rewrite (handleFileSelect_plain env file rest w Hheic).
    eexists. split; [reflexivity|]. apply Hrun.
Qed.

(** X26. A selection does not cancel a read that [processImage] has
    started.  For a file that needs no HEIC conversion the handler runs
    without a pause, so when the user picks such a file while the
    compressed file is still being read, the processed image is cleared by
    the selection and then set again, to the data URL of the earlier
    result, as soon as that read completes; the file selected stays the
    new one. *)
Theorem pending_result_survives_selection (env : Env) (file : File.t)
    (rest : list File.t) (w : World) (compressed : File.t) :
  is_heic file = false ->
  reading w = [ReadProcessed compressed] ->
  let selection := snd (handleFileSelect env (file :: rest) w) in
  processedImage (state selection) = None
  /\ processedImage (state (finish_reads env selection))
     = Some (readAsDataURL env compressed)
  /\ selectedFile (state (finish_reads env selection)) = Some file.
Proof.
  intros Hplain Hpending. cbv zeta.
  rewrite (handleFileSelect_plain env file rest w Hplain).
  unfold finish_reads. cbn [snd reading]. rewrite Hpending.
  split; [reflexivity|]. split; reflexivity.
Qed.

Lemma pending_result_survives_selection_witness :
  let busy := snd (processImage sample_env unmounted_world) in
  let selection := snd (handleFileSelect sample_env [sample_webp] busy) in
  reading busy = [ReadProcessed sample_png]
  /\ processedImage (state selection) = None
  /\ processedImage (state (finish_reads sample_env selection))
     = Some "data:image/png;base64,holiday.png"
  /\ selectedFile (state (finish_reads sample_env selection))
     = Some sample_webp.
Proof.
  cbv zeta.
  assert (Hbusy : reading (snd (processImage sample_env unmounted_world))
                  = [ReadProcessed sample_png]) by reflexivity.
  destruct (pending_result_survives_selection sample_env sample_webp []
              (snd (processImage sample_env unmounted_world)) sample_png
              eq_refl Hbusy)
    as (Hcleared & Hback & Hfile).
  split; [exact Hbusy|]. split; [exact Hcleared|].
  split; [exact Hback | exact Hfile].
Defined.
